(** * baskets.collect: holdings normalisation, schema checks and the driver

    A shallow embedding of [src/baskets/collect.py] and [src/baskets/utils.py]
    and the properties its specification states about them.

    Modelling conventions.
    - Python floats are modelled as exact rationals ([Q]); equalities between
      computed numbers are stated with [Qeq] ([==]).
    - Python exceptions are modelled by the error type [exn] and the result
      type [res]; code that also logs runs in the monad [M], which collects
      the emitted log records in order.
    - Python [set]s of column names are stdpp [gset string]; the issuer
      registry [issuers.MODULES], a dict, is a [gmap string Downloader]. *)

From Stdlib Require Import QArith.
From stdpp Require Import base decidable option list strings gmap.

Local Open Scope string_scope.
Local Open Scope list_scope.
Local Open Scope stdpp_scope.

#[local] Set Warnings "-clear-no-such-hyp".

(** ** Values, exceptions, results *)

(** A cell of a table: Python's dynamically typed values, as far as this
    module handles them. *)
Inductive value : Type :=
  | VStr (s : string)
  | VFloat (q : Q)
  | VNone.

Inductive exn : Type :=
  | AssertionError (msg : string)
  | SchemaError
  | AttributeError (attr : string)
  | TypeError
  | ZeroDivisionError.

Inductive res (A : Type) : Type :=
  | Ok (a : A)
  | Raise (e : exn).
Arguments Ok {A} a.
Arguments Raise {A} e.

#[global] Instance res_ret : MRet res := fun _ a => Ok a.
#[global] Instance res_bind : MBind res := fun _ _ f m =>
  match m with Ok a => f a | Raise e => Raise e end.
#[global] Instance res_fmap : FMap res := fun _ _ f m =>
  match m with Ok a => Ok (f a) | Raise e => Raise e end.

Definition is_ok {A} (r : res A) : bool :=
  match r with Ok _ => true | Raise _ => false end.

(** [mapM] specialised to [res]: evaluates [f] left to right and stops at the
    first exception. *)
Fixpoint traverse {A B} (f : A -> res B) (l : list A) : res (list B) :=
  match l with
  | [] => Ok []
  | x :: l' =>
      match f x with
      | Raise e => Raise e
      | Ok y => match traverse f l' with
                | Raise e => Raise e
                | Ok ys => Ok (y :: ys)
                end
      end
  end.

Definition of_option {A} (e : exn) (o : option A) : res A :=
  match o with Some a => Ok a | None => Raise e end.

(** ** Table *)

Module table.

(** Modelled from the spec: [baskets/table.py] is not part of the sources.
    A table is an ordered list of column names and an ordered sequence of
    rows, each row aligned to the column list.  The advisory per-column
    declared types, used only for CSV serialisation, are left out. *)
Record Table : Type := mkTable {
  columns : list string;
  rows : list (list value)
}.

(** The table invariant of the specification: every row's arity equals the
    column count. *)
Definition wf (t : Table) : Prop :=
  Forall (fun r => length r = length (columns t)) (rows t).

(** Position of a column name in a column list. *)
Fixpoint index (c : string) (cols : list string) : option nat :=
  match cols with
  | [] => None
  | c' :: cols' => if decide (c = c') then Some 0%nat else S <$> index c cols'
  end.

(** Modelled from the spec: a row as seen by the per-row functions, a tuple
    whose fields are read by column name ([row.fraction]). *)
Record Row : Type := mkRow {
  row_columns : list string;
  row_values : list value
}.

Definition getattr (r : Row) (name : string) : res value :=
  match index name (row_columns r) with
  | None => Raise (AttributeError name)
  | Some i => of_option SchemaError (row_values r !! i)
  end.

(** Modelled from the spec: iterating a table yields its rows in order. *)
Definition iter (t : Table) : list Row :=
  map (mkRow (columns t)) (rows t).

(** Modelled from the spec: [create(column_name, fn)] appends a new column
    computed per row from the existing row; fails if the column exists. *)
Definition create (t : Table) (column : string) (fn : Row -> res value)
  : res Table :=
  if decide (column ∈ columns t) then Raise SchemaError
  else
    rows' ← traverse (fun r => v ← fn (mkRow (columns t) r); Ok (r ++ [v]))
                     (rows t);
    Ok (mkTable (columns t ++ [column]) rows').

(** Keeps the cells of [r] whose column, by position, is not in [names]. *)
Fixpoint drop_cells (names cols : list string) (r : list value) : list value :=
  match cols, r with
  | c :: cols', v :: r' =>
      if decide (c ∈ names) then drop_cells names cols' r'
      else v :: drop_cells names cols' r'
  | _, _ => []
  end.

(** Modelled from the spec: [delete(column_names)] returns a table lacking
    the named columns; fails if any name is absent. *)
Definition delete (t : Table) (names : list string) : res Table :=
  if decide (Forall (fun n => n ∈ columns t) names) then
    Ok (mkTable (filter (fun c => c ∉ names) (columns t))
                (map (drop_cells names (columns t)) (rows t)))
  else Raise SchemaError.

(** Modelled from the spec: [select(column_names)] restricts and reorders the
    table to exactly the named columns; fails if any name is absent. *)
Definition select (t : Table) (names : list string) : res Table :=
  idxs ← traverse (fun n => of_option SchemaError (index n (columns t))) names;
  rows' ← traverse (fun r => traverse (fun i => of_option SchemaError (r !! i))
                                      idxs)
                   (rows t);
  Ok (mkTable names rows').

(** Modelled from the spec: [map(column_name, fn)] replaces a column's values
    by applying [fn] to each row's value in that column. *)
Definition map (t : Table) (column : string) (fn : value -> res value)
  : res Table :=
  i ← of_option SchemaError (index column (columns t));
  rows' ← traverse (fun r => v ← of_option SchemaError (r !! i);
                             v' ← fn v;
                             Ok (<[i := v']> r))
                   (rows t);
  Ok (mkTable (columns t) rows').

(** Modelled from the spec: [values(column_name)] / [array(column_name)]
    produce the column's values as a sequence, preserving row order. *)
Definition values (t : Table) (column : string) : res (list value) :=
  i ← of_option SchemaError (index column (columns t));
  traverse (fun r => of_option SchemaError (r !! i)) (rows t).

Definition array (t : Table) (column : string) : res (list value) :=
  values t column.

(** Modelled from the spec: [head(n)] returns the first [n] rows. *)
Definition head (t : Table) (n : nat) : Table :=
  mkTable (columns t) (take n (rows t)).

(** Modelled from the spec: [concat] of several tables has the schema of the first
    table and fails when a later table has a different column list.  The
    specification does not say what concatenating no table at all gives; the
    model raises, and no theorem below depends on that choice. *)
Definition concat (tables : list Table) : res Table :=
  match tables with
  | [] => Raise SchemaError
  | t :: rest =>
      if decide (Forall (fun t' => columns t' = columns t) rest)
      then Ok (mkTable (columns t) (rows t ++ mjoin (List.map rows rest)))
      else Raise SchemaError
  end.

End table.

Abbreviation Table := table.Table.
Abbreviation Row := table.Row.

(** ** Python arithmetic on cells *)

(** A cell used as a number; anything else is a [TypeError]. *)
Definition as_float (v : value) : res Q :=
  match v with
  | VFloat q => Ok q
  | _ => Raise TypeError
  end.

(** Strict comparison of numbers, [x < y]. *)
Definition Qltb (x y : Q) : bool := negb (Qle_bool y x).

(** [sum(values)]: starts from 0 and adds from the left. *)
Definition py_sum (l : list Q) : Q := fold_left Qplus l 0%Q.

(** [x / y] on floats: raises [ZeroDivisionError] when [y] is zero. *)
Definition py_div (x y : Q) : res Q :=
  if Qeq_bool y 0 then Raise ZeroDivisionError else Ok (x / y)%Q.

(** [v * y] for a cell [v] and a number [y]. *)
Definition py_mul (v : value) (y : Q) : res value :=
  q ← as_float v; Ok (VFloat (q * y)%Q).

(** ** Logging *)

(** The log records and printed output this module emits, in order. *)
Inductive event : Type :=
  | ErrorTotalWeight (total : Q)
  | ErrorMissingIssuer (issuer : string)
  | ErrorMissingFile (ticker : string)
  | LogParsing (filename issuer : string)
  | ErrorNoParser (ticker : string)
  | LogFullTotal (total : Q)
  | LogTotal (total : Q)
  | Stdout (t : Table).

(** Computations that log and may raise: the records emitted so far and the
    outcome. *)
Definition M (A : Type) : Type := (list event * res A)%type.

#[global] Instance M_ret : MRet M := fun _ a => ([], Ok a).
#[global] Instance M_bind : MBind M := fun _ _ f m =>
  match m with
  | (l, Raise e) => (l, Raise e)
  | (l, Ok a) => let '(l', r) := f a in (l ++ l', r)
  end.

Definition logging (e : event) : M unit := ([e], Ok ()).
Definition lift {A} (r : res A) : M A := ([], r).

(** ** collect.py *)

(** Line 39: [[row.fraction for row in table]], as numbers. *)
Definition fractions (tbl : Table) : res (list Q) :=
  traverse (fun row => table.getattr row "fraction" ≫= as_float)
           (table.iter tbl).

(** Lines 37-43. *)
Definition normalize_holdings_table (tbl : Table) : M Table :=
  fractions ← lift (fractions tbl);
  let total := py_sum fractions in
  (if negb (Qltb 0.98 total && Qltb total 1.02)
   then logging (ErrorTotalWeight total)
   else mret ());;
  scale ← lift (py_div 1 total);
  lift (table.map tbl "fraction" (fun f => py_mul f scale)).

Definition ASSTYPES : gset string := {["Equity"; "FixedIncome"; "ShortTerm"]}.
Definition IDCOLUMNS : list string :=
  ["name"; "ticker"; "sedol"; "isin"; "cusip"].
Definition COLUMNS : list string :=
  ["etf"; "account"; "fraction"; "asstype"] ++ IDCOLUMNS.

Definition assert (b : bool) (msg : string) : res unit :=
  if b then Ok () else Raise (AssertionError msg).

(** [cls in ASSTYPES] for a cell [cls]. *)
Definition in_ASSTYPES (cls : value) : bool :=
  match cls with
  | VStr s => bool_decide (s ∈ ASSTYPES)
  | _ => false
  end.

(** Lines 51-65. *)
Definition check_holdings (holdings : Table) : res unit :=
  let actual : gset string := list_to_set (table.columns holdings) in
  let allowed : gset string :=
    {["asstype"; "fraction"]} ∪ list_to_set IDCOLUMNS in
  let other := actual ∖ allowed in
  assert (bool_decide (other = ∅)) "Extra columns found";;
  let required : gset string := {["asstype"; "fraction"]} in
  assert (bool_decide (required ⊆ actual)) "Required columns missing";;
  assert (bool_decide (list_to_set IDCOLUMNS ∩ actual ≠ ∅))
         "No ids columns found";;
  classes ← table.values holdings "asstype";
  assert (forallb in_ASSTYPES classes) "".

(** Lines 69-71: the loop over the identifier columns, rebinding [tbl]. *)
Fixpoint add_missing_columns_loop (cols : list string) (tbl : Table)
  : res Table :=
  match cols with
  | [] => Ok tbl
  | column :: cols' =>
      tbl' ← (if decide (column ∈ table.columns tbl) then Ok tbl
              else table.create tbl column (fun _ => Ok (VStr "")));
      add_missing_columns_loop cols' tbl'
  end.

(** Lines 68-72. *)
Definition add_missing_columns (tbl : Table) : res Table :=
  add_missing_columns_loop IDCOLUMNS tbl.

(** *** The driver *)

(** A portfolio position, a row of the assets table (line 102). *)
Record Position : Type := mkPosition {
  ticker : string;
  account : string;
  issuer : option string;
  price : Q;
  number : Q
}.

(** An issuer module of [issuers.MODULES]; [parse] is absent when the module
    has no parser ([hasattr(downloader, 'parse')], line 137). *)
Record Downloader : Type := mkDownloader {
  parse : option (string -> res Table)
}.

(** The collaborators of [main] that are outside this module: the issuer
    registry, the lookup of the latest downloaded file of a ticker, and the
    aggregation [graph.group]. *)
Record Env : Type := mkEnv {
  MODULES : gmap string Downloader;
  getlatest : string -> option string;
  group : Table -> res Table
}.

(** Truth value of [row.issuer]: [None] and the empty string are false. *)
Definition truthy (o : option string) : bool :=
  match o with
  | None => false
  | Some s => negb (bool_decide (s = ""))
  end.

(** Lines 120-143: the raw holdings of a position, or [None] where the loop
    body executes [continue]. *)
Definition raw_holdings (env : Env) (row : Position) : M (option Table) :=
  if negb (truthy (issuer row)) then
    mret (Some (table.mkTable ["fraction"; "asstype"; "ticker"]
                              [[VFloat 1.0; VStr "Equity"; VStr (ticker row)]]))
  else
    let name := default "" (issuer row) in
    match MODULES env !! name with
    | None => logging (ErrorMissingIssuer name);; mret None
    | Some downloader =>
        match getlatest env (ticker row) with
        | None => logging (ErrorMissingFile (ticker row));; mret None
        | Some filename =>
            logging (LogParsing filename name);;
            match parse downloader with
            | None => logging (ErrorNoParser (ticker row));; mret None
            | Some parse =>
                holdings ← lift (parse filename);
                lift (check_holdings holdings);;
                mret (Some holdings)
            end
        end
    end.

(** Lines 146-155: column fixup and conversion of fractions to amounts. *)
Definition to_amounts (row : Position) (holdings : Table) : res Table :=
  holdings ← add_missing_columns holdings;
  holdings ← table.create holdings "etf" (fun _ => Ok (VStr (ticker row)));
  holdings ← table.create holdings "account" (fun _ => Ok (VStr (account row)));
  holdings ← table.select holdings COLUMNS;
  let dollar_amount := (number row * price row)%Q in
  holdings ← table.create holdings "amount"
               (fun row => f ← table.getattr row "fraction";
                           py_mul f dollar_amount);
  table.delete holdings ["fraction"].

(** Lines 114-157: the loop over the assets, in the order of line 104,
    accumulating [alltables]. *)
Fixpoint main_loop (env : Env) (ignore_shorts : bool)
    (assets : list Position) (alltables : list Table) : M (list Table) :=
  match assets with
  | [] => mret alltables
  | row :: assets' =>
      if Qltb (number row) 0 && ignore_shorts then
        main_loop env ignore_shorts assets' alltables
      else
        raw ← raw_holdings env row;
        match raw with
        | None => main_loop env ignore_shorts assets' alltables
        | Some holdings =>
            holdings ← lift (to_amounts row holdings);
            main_loop env ignore_shorts assets' (alltables ++ [holdings])
        end
  end.

(** [numpy.cumsum]. *)
Fixpoint cumsum_from (acc : Q) (l : list Q) : list Q :=
  match l with
  | [] => []
  | x :: l' => (acc + x)%Q :: cumsum_from (acc + x)%Q l'
  end.
Definition cumsum (l : list Q) : list Q := cumsum_from 0 l.

(** [a[mask]]: the elements of [a] at the positions where [mask] is true. *)
Fixpoint mask_select {A} (a : list A) (mask : list bool) : list A :=
  match a, mask with
  | x :: a', b :: mask' =>
      if b then x :: mask_select a' mask' else mask_select a' mask'
  | _, _ => []
  end.

(** Lines 174-179 on the amount array: the size of the printed head. *)
Definition headsize (amount : list Q) : nat :=
  let tail := 0.98%Q in
  let total_amount := py_sum amount in
  let cum_amount := cumsum amount in
  length (mask_select amount
            (List.map (fun c => Qltb c (total_amount * tail)) cum_amount)).

(** [tbl.array('amount')] as a numeric array (lines 162 and 175). *)
Definition amount_array (tbl : Table) : res (list Q) :=
  table.array tbl "amount" ≫= traverse as_float.

(** Lines 159-162: the full table of the assets. *)
Definition full_table (env : Env) (ignore_shorts : bool)
    (assets : list Position) : M Table :=
  alltables ← main_loop env ignore_shorts assets [];
  fulltable ← lift (table.concat alltables);
  amounts ← lift (amount_array fulltable);
  logging (LogFullTotal (py_sum amounts));;
  mret fulltable.

(** Lines 111-180 of [main], after the assets have been read and ordered;
    writing the two CSV files is left out.  Returns the full table. *)
Definition main (env : Env) (ignore_shorts : bool) (assets : list Position)
  : M Table :=
  fulltable ← full_table env ignore_shorts assets;
  aggtable ← lift (group env fulltable);
  amount ← lift (amount_array aggtable);
  logging (LogTotal (py_sum amount));;
  logging (Stdout (table.head aggtable (headsize amount)));;
  mret fulltable.

(** ** utils.py *)

Module utils.

(** [b.startswith('/')]. *)
Definition startswith_sep (s : string) : bool :=
  match s with
  | String c _ => bool_decide (String c EmptyString = "/")
  | EmptyString => false
  end.

(** [a.endswith('/')]. *)
Fixpoint endswith_sep (s : string) : bool :=
  match s with
  | EmptyString => false
  | String c EmptyString => bool_decide (String c EmptyString = "/")
  | String _ s' => endswith_sep s'
  end.

(** [os.path.join(a, b)] of the POSIX path module, for two components: an
    absolute [b] replaces [a]; otherwise [b] is appended, after a separator
    unless [a] is empty or ends with one. *)
Definition join (a b : string) : string :=
  if startswith_sep b then b
  else if bool_decide (a = "") || endswith_sep a then a +:+ b
  else a +:+ "/" +:+ b.

(** The ways in which [os.listdir] fails. *)
Inductive OSError : Type :=
  | FileNotFoundError
  | NotADirectoryError
  | PermissionError.

(** Lines 7-9 of utils.py: the loop over the entries, appending to
    [filenames]. *)
Fixpoint abslistdir_loop (directory : string) (names filenames : list string)
  : list string :=
  match names with
  | [] => filenames
  | filename :: names' =>
      abslistdir_loop directory names' (filenames ++ [join directory filename])
  end.

(** Lines 5-9 of utils.py; [listdir] is [os.listdir], the entries of a
    directory or the error it raises. *)
Definition abslistdir (listdir : string -> OSError + list string)
    (directory : string) : OSError + list string :=
  match listdir directory with
  | inl e => inl e
  | inr names => inr (abslistdir_loop directory names [])
  end.

End utils.

(** * Properties *)

(** ** Results and traversals *)

Lemma traverse_Ok {A B} (f : A -> res B) (l : list A) (l' : list B) :
  traverse f l = Ok l' <-> Forall2 (fun x y => f x = Ok y) l l'.
Proof.
  revert l'. induction l as [|x l IH]; intros l'; simpl.
  - split.
    + intros [= <-]. constructor.
    + intros H. inversion H. reflexivity.
  - split.
    + destruct (f x) as [y|e] eqn:Hx; [|discriminate].
      destruct (traverse f l) as [ys|e] eqn:Hl; [|discriminate].
      intros [= <-]. constructor; [assumption|]. by apply IH.
    + intros H. inversion H as [|? y ? ys Hx Hl]; subst.
      rewrite Hx. apply IH in Hl. by rewrite Hl.
Qed.

Lemma traverse_total {A B} (f : A -> res B) (g : A -> B) (l : list A) :
  Forall (fun x => f x = Ok (g x)) l -> traverse f l = Ok (List.map g l).
Proof.
  induction 1 as [|x l Hx _ IH]; simpl; [reflexivity|].
  by rewrite Hx, IH.
Qed.

Lemma traverse_length {A B} (f : A -> res B) (l : list A) (l' : list B) :
  traverse f l = Ok l' -> length l' = length l.
Proof.
  intros H. apply traverse_Ok in H. symmetry. by eapply Forall2_length.
Qed.

(** ** Column positions *)

Lemma index_Some_lookup c cols i :
  table.index c cols = Some i -> cols !! i = Some c.
Proof.
  revert i. induction cols as [|c' cols IH]; intros i; simpl; [discriminate|].
  destruct (decide (c = c')) as [->|Hne].
  - by intros [= <-].
  - destruct (table.index c cols) as [j|]; simpl; [|discriminate].
    intros [= <-]. simpl. by apply IH.
Qed.

Lemma index_Some_lt c cols i :
  table.index c cols = Some i -> (i < length cols)%nat.
Proof. intros H. eapply lookup_lt_Some, index_Some_lookup, H. Qed.

Lemma index_None c cols : table.index c cols = None <-> c ∉ cols.
Proof.
  induction cols as [|c' cols IH]; simpl.
  - split; [intros _; apply not_elem_of_nil | done].
  - destruct (decide (c = c')) as [->|Hne].
    + split; [discriminate|]. intros H. exfalso. apply H. left.
    + rewrite not_elem_of_cons.
      destruct (table.index c cols) as [j|]; simpl.
      * split; [discriminate|]. intros [_ H]. by apply IH in H.
      * split; [|done]. intros _. split; [done|]. by apply IH.
Qed.

Lemma index_elem_of c cols :
  c ∈ cols -> exists i, table.index c cols = Some i.
Proof.
  intros Hin. destruct (table.index c cols) as [i|] eqn:Hi; [by exists i|].
  apply index_None in Hi. contradiction.
Qed.

Lemma index_app_l c cols cols' i :
  table.index c cols = Some i -> table.index c (cols ++ cols') = Some i.
Proof.
  revert i. induction cols as [|c' cols IH]; intros i; simpl; [discriminate|].
  destruct (decide (c = c')); [done|].
  destruct (table.index c cols) as [j|]; simpl; [|discriminate].
  intros [= <-]. by rewrite (IH j).
Qed.

Lemma index_app_r c cols cols' :
  c ∉ cols ->
  table.index c (cols ++ cols') =
  (fun j => (length cols + j)%nat) <$> table.index c cols'.
Proof.
  induction cols as [|c' cols IH]; simpl; intros Hnin.
  - by destruct (table.index c cols').
  - apply not_elem_of_cons in Hnin as [Hne Hnin].
    destruct (decide (c = c')); [done|].
    rewrite IH by done. by destruct (table.index c cols').
Qed.

(** ** add_missing_columns *)

Lemma filter_ext_Forall {A} (P Q : A -> Prop)
    `{!forall x, Decision (P x)} `{!forall x, Decision (Q x)} (l : list A) :
  Forall (fun x => P x <-> Q x) l -> filter P l = filter Q l.
Proof.
  induction 1 as [|x l Hx _ IH]; [reflexivity|].
  rewrite !filter_cons, IH.
  destruct (decide (P x)), (decide (Q x)); tauto.
Qed.

(** Creating a column from a constant always succeeds on a fresh name. *)
Lemma create_const (t : Table) (c : string) (v : value) :
  c ∉ table.columns t ->
  table.create t c (fun _ => Ok v) =
  Ok (table.mkTable (table.columns t ++ [c])
                    (List.map (fun r => r ++ [v]) (table.rows t))).
Proof.
  intros Hc. unfold table.create.
  destruct (decide (c ∈ table.columns t)); [contradiction|].
  rewrite (traverse_total _ (fun r => r ++ [v])); [reflexivity|].
  apply Forall_forall. reflexivity.
Qed.

(** The identifier columns of [cols] that [t] lacks, in order. *)
Definition missing (cols : list string) (t : Table) : list string :=
  filter (fun c => c ∉ table.columns t) cols.

(** What the loop computes: the missing columns are appended in order, and
    every row is extended by one empty string per appended column. *)
Lemma add_missing_columns_loop_spec (cols : list string) (t : Table) :
  NoDup cols ->
  add_missing_columns_loop cols t =
  Ok (table.mkTable
        (table.columns t ++ missing cols t)
        (List.map (fun r => r ++ replicate (length (missing cols t)) (VStr ""))
                  (table.rows t))).
Proof.
  intros Hnd. revert t.
  induction Hnd as [|c cols Hc Hnd IH]; intros t; simpl.
  - destruct t as [cs rs]. unfold missing. simpl. rewrite app_nil_r.
    f_equal. f_equal. rewrite <- (map_id rs) at 1.
    apply map_ext. intros r. by rewrite app_nil_r.
  - unfold missing. rewrite filter_cons.
    destruct (decide (c ∈ table.columns t)) as [Hin|Hnin].
    + destruct (decide (c ∉ table.columns t)); [contradiction|].
      simpl. apply IH.
    + destruct (decide (c ∉ table.columns t)); [|contradiction].
      rewrite create_const by done. simpl. rewrite IH. simpl.
      assert (Hm : missing cols
                     (table.mkTable (table.columns t ++ [c])
                        (List.map (fun r => r ++ [VStr ""]) (table.rows t)))
                   = missing cols t).
      { unfold missing. simpl. apply filter_ext_Forall, Forall_forall.
        intros x Hx. rewrite not_elem_of_app, not_elem_of_cons.
        split; [tauto|]. intros Hxt. split; [done|]. split; [|apply not_elem_of_nil].
        intros ->. contradiction. }
      rewrite Hm. unfold missing. f_equal. f_equal.
      * by rewrite <- app_assoc.
      * rewrite map_map. apply map_ext. intros r.
        by rewrite <- app_assoc.
Qed.

Lemma IDCOLUMNS_NoDup : NoDup IDCOLUMNS.
Proof. apply (bool_decide_unpack _). vm_compute. exact I. Qed.

Lemma add_missing_columns_spec (t : Table) :
  add_missing_columns t =
  Ok (table.mkTable
        (table.columns t ++ missing IDCOLUMNS t)
        (List.map (fun r => r ++ replicate (length (missing IDCOLUMNS t))
                                           (VStr ""))
                  (table.rows t))).
Proof. apply add_missing_columns_loop_spec, IDCOLUMNS_NoDup. Qed.

Lemma missing_covers (cols : list string) (t : Table) (c : string) :
  c ∈ cols -> c ∈ table.columns t ++ missing cols t.
Proof.
  intros Hc. apply elem_of_app.
  destruct (decide (c ∈ table.columns t)); [by left|right].
  unfold missing. by apply list_elem_of_filter.
Qed.

Lemma missing_nil (cols : list string) (t : Table) :
  Forall (fun c => c ∈ table.columns t) cols -> missing cols t = [].
Proof.
  unfold missing. induction 1 as [|c cols Hc _ IH]; [reflexivity|].
  rewrite filter_cons. destruct (decide (c ∉ table.columns t)); [contradiction|].
  exact IH.
Qed.

(** C7: [add_missing_columns] is idempotent: it always returns a table, and
    applying it to that table returns the same table. *)
Theorem add_missing_columns_idempotent (T : Table) :
  exists T', add_missing_columns T = Ok T' /\ add_missing_columns T' = Ok T'.
Proof.
  eexists. split; [apply add_missing_columns_spec|].
  match goal with |- add_missing_columns ?t = _ => set (T' := t) end.
  assert (Hnil : missing IDCOLUMNS T' = []).
  { apply missing_nil, Forall_forall. intros c Hc. by apply missing_covers. }
  rewrite add_missing_columns_spec, Hnil. simpl.
  rewrite app_nil_r. unfold T'. simpl. f_equal. f_equal.
  transitivity (List.map id (List.map
    (fun r => r ++ replicate (length (missing IDCOLUMNS T)) (VStr ""))
    (table.rows T))); [|apply map_id].
  apply map_ext. intros r. apply app_nil_r.
Qed.

Lemma traverse_const {A B} (f : A -> res B) (b : B) (l : list A) :
  Forall (fun x => f x = Ok b) l -> traverse f l = Ok (replicate (length l) b).
Proof.
  induction 1 as [|x l Hx _ IH]; simpl; [reflexivity|].
  by rewrite Hx, IH.
Qed.

(** C8: [add_missing_columns] returns a table in which every identifier
    column is present, and every identifier column that the input lacked
    holds the empty string in every row. *)
Theorem add_missing_columns_identifiers (T : Table) :
  table.wf T ->
  exists T',
    add_missing_columns T = Ok T' /\
    (forall c, c ∈ IDCOLUMNS -> c ∈ table.columns T') /\
    (forall c, c ∈ IDCOLUMNS -> c ∉ table.columns T ->
       table.values T' c = Ok (replicate (length (table.rows T)) (VStr ""))).
Proof.
  intros Hwf. eexists. split; [apply add_missing_columns_spec|].
  split; simpl.
  - intros c Hc. by apply missing_covers.
  - intros c Hc Hnin. unfold table.values. simpl.
    assert (Hm : c ∈ missing IDCOLUMNS T).
    { unfold missing. by apply list_elem_of_filter. }
    destruct (index_elem_of _ _ Hm) as [j Hj].
    rewrite index_app_r, Hj by done. simpl.
    rewrite <- (length_map (fun r => r ++ replicate (length (missing IDCOLUMNS T))
                                                   (VStr "")) (table.rows T)).
    apply traverse_const, Forall_map.
    eapply Forall_impl; [exact Hwf|]. simpl. intros r Hr.
    rewrite lookup_app_r by lia.
    replace (length (table.columns T) + j - length r)%nat with j by lia.
    rewrite lookup_replicate_2; [reflexivity|].
    eapply index_Some_lt, Hj.
Qed.

(** A holdings table with a ticker column only, whose fractions sum to
    three quarters. *)
Definition two_tickers : Table :=
  table.mkTable ["fraction"; "ticker"]
                [[VFloat 0.5; VStr "A"]; [VFloat 0.25; VStr "B"]].

Lemma two_tickers_wf : table.wf two_tickers.
Proof. repeat constructor. Qed.

(** The statement of C8 at [two_tickers]. *)
Lemma add_missing_columns_identifiers_witness :
  table.wf two_tickers /\
  exists T',
    add_missing_columns two_tickers = Ok T' /\
    (forall c, c ∈ IDCOLUMNS -> c ∈ table.columns T') /\
    (forall c, c ∈ IDCOLUMNS -> c ∉ table.columns two_tickers ->
       table.values T' c =
       Ok (replicate (length (table.rows two_tickers)) (VStr ""))).
Proof.
  split; [exact two_tickers_wf|].
  exact (add_missing_columns_identifiers two_tickers two_tickers_wf).
Defined.

(** ** check_holdings *)

Lemma in_ASSTYPES_spec (v : value) :
  in_ASSTYPES v = true <->
  v ∈ [VStr "Equity"; VStr "FixedIncome"; VStr "ShortTerm"].
Proof.
  destruct v as [s| |]; simpl.
  - rewrite bool_decide_eq_true. unfold ASSTYPES.
    rewrite !elem_of_union, !elem_of_singleton, !elem_of_cons, elem_of_nil.
    split.
    + intros [[->| ->]| ->]; tauto.
    + intros [[= ->]|[[= ->]|[[= ->]|[]]]]; tauto.
  - split; [discriminate|].
    rewrite !elem_of_cons, elem_of_nil. intros [?|[?|[?|[]]]]; discriminate.
  - split; [discriminate|].
    rewrite !elem_of_cons, elem_of_nil. intros [?|[?|[?|[]]]]; discriminate.
Qed.

Lemma forallb_in_ASSTYPES (vs : list value) :
  forallb in_ASSTYPES vs = false <->
  exists v, v ∈ vs /\ v ∉ [VStr "Equity"; VStr "FixedIncome"; VStr "ShortTerm"].
Proof.
  induction vs as [|v vs IH]; simpl.
  - split; [discriminate|]. intros (v & Hv & _). by apply elem_of_nil in Hv.
  - rewrite andb_false_iff, IH. split.
    + intros [Hv|(w & Hw & Hbad)].
      * exists v. split; [left|]. rewrite <- in_ASSTYPES_spec. congruence.
      * exists w. split; [by right|done].
    + intros (w & Hw & Hbad). apply elem_of_cons in Hw as [->|Hw].
      * left. rewrite <- in_ASSTYPES_spec in Hbad.
        by destruct (in_ASSTYPES v).
      * right. by exists w.
Qed.

(** On a table that satisfies the invariant, reading a present column
    succeeds. *)
Lemma values_present (t : Table) (c : string) :
  table.wf t -> c ∈ table.columns t -> exists vs, table.values t c = Ok vs.
Proof.
  intros Hwf Hc. unfold table.values.
  destruct (index_elem_of _ _ Hc) as [i Hi]. rewrite Hi. simpl.
  pose proof (index_Some_lt _ _ _ Hi) as Hlt.
  induction Hwf as [|r rs Hr _ IH]; simpl; [by eexists|].
  destruct (lookup_lt_is_Some_2 r i) as [v Hv]; [lia|].
  rewrite Hv. simpl. destruct IH as [vs ->]. by eexists.
Qed.

(** The four ways in which a holdings table violates the schema. *)
Definition extra_column (t : Table) : Prop :=
  exists c, c ∈ table.columns t /\ c ∉ ["asstype"; "fraction"] ++ IDCOLUMNS.
Definition required_missing (t : Table) : Prop :=
  "asstype" ∉ table.columns t \/ "fraction" ∉ table.columns t.
Definition no_identifier (t : Table) : Prop :=
  forall c, c ∈ IDCOLUMNS -> c ∉ table.columns t.
Definition bad_asstype (t : Table) : Prop :=
  exists vs v, table.values t "asstype" = Ok vs /\ v ∈ vs /\
               v ∉ [VStr "Equity"; VStr "FixedIncome"; VStr "ShortTerm"].

Lemma check_extra (t : Table) :
  bool_decide ((list_to_set (table.columns t) : gset string)
                 ∖ ({["asstype"; "fraction"]} ∪ list_to_set IDCOLUMNS) = ∅)
  = false <-> extra_column t.
Proof.
  rewrite bool_decide_eq_false. unfold extra_column. split.
  - intros Hne. destruct (set_choose_L _ Hne) as [c Hc].
    exists c. set_solver.
  - intros (c & Hc & Hnot) Hempty.
    assert (c ∈ (list_to_set (table.columns t) : gset string)
                ∖ ({["asstype"; "fraction"]} ∪ list_to_set IDCOLUMNS))
      as Hin by set_solver.
    rewrite Hempty in Hin. set_solver.
Qed.

Lemma check_required (t : Table) :
  bool_decide (({["asstype"; "fraction"]} : gset string)
                 ⊆ list_to_set (table.columns t)) = false
  <-> required_missing t.
Proof.
  rewrite bool_decide_eq_false. unfold required_missing. split.
  - intros Hns.
    destruct (decide ("asstype" ∈ table.columns t)); [|by left].
    destruct (decide ("fraction" ∈ table.columns t)); [|by right].
    exfalso. apply Hns. set_solver.
  - intros [H|H] Hsub; apply H; set_solver.
Qed.

Lemma check_identifier (t : Table) :
  bool_decide ((list_to_set IDCOLUMNS : gset string)
                 ∩ list_to_set (table.columns t) ≠ ∅) = false
  <-> no_identifier t.
Proof.
  rewrite bool_decide_eq_false. unfold no_identifier. split.
  - intros Hnn c Hc Hin. apply Hnn. intros Hempty.
    assert (c ∈ (list_to_set IDCOLUMNS : gset string)
                ∩ list_to_set (table.columns t)) as Hmem.
    { apply elem_of_intersection. by rewrite !elem_of_list_to_set. }
    rewrite Hempty in Hmem. by apply not_elem_of_empty in Hmem.
  - intros Hno Hne. destruct (set_choose_L _ Hne) as [c Hc].
    apply (Hno c); set_solver.
Qed.

(** C3: [check_holdings] fails, with an assertion error, if and only if the
    table has a column outside the allowed ones, or lacks [asstype] or
    [fraction], or has no identifier column, or holds an [asstype] value
    outside Equity, FixedIncome and ShortTerm. *)
Theorem check_holdings_fails_iff (t : Table) :
  table.wf t ->
  (check_holdings t = Ok () \/
   exists msg, check_holdings t = Raise (AssertionError msg)) /\
  (is_ok (check_holdings t) = false <->
   extra_column t \/ required_missing t \/ no_identifier t \/ bad_asstype t).
Proof.
  intros Hwf. unfold check_holdings.
  pose proof (check_extra t) as Ha.
  pose proof (check_required t) as Hb.
  pose proof (check_identifier t) as Hc.
  destruct (bool_decide (_ ∖ _ = ∅)); simpl.
  2:{ split; [right; by eexists|]. split; [intros _; left; by apply Ha|done]. }
  destruct (bool_decide (_ ⊆ _)); simpl.
  2:{ split; [right; by eexists|].
      split; [intros _; right; left; by apply Hb|done]. }
  destruct (bool_decide (_ ∩ _ ≠ ∅)); simpl.
  2:{ split; [right; by eexists|].
      split; [intros _; do 2 right; left; by apply Hc|done]. }
  assert (Hass : "asstype" ∈ table.columns t).
  { destruct (decide ("asstype" ∈ table.columns t)) as [|Hn]; [done|].
    assert (required_missing t) as Hr by (by left).
    apply Hb in Hr. discriminate. }
  destruct (values_present t "asstype" Hwf Hass) as [vs Hvs].
  rewrite Hvs. simpl.
  pose proof (forallb_in_ASSTYPES vs) as Hd.
  destruct (forallb in_ASSTYPES vs); simpl.
  - split; [by left|]. split; [discriminate|].
    intros [H|[H|[H|H]]].
    + apply Ha in H. discriminate.
    + apply Hb in H. discriminate.
    + apply Hc in H. discriminate.
    + destruct H as (vs' & v & Hvs' & Hv & Hbad).
      rewrite Hvs in Hvs'. injection Hvs' as <-.
      apply Hd. by exists v.
  - split; [right; by eexists|]. split; [|done].
    intros _. do 3 right. destruct Hd as [Hd _].
    destruct (Hd eq_refl) as (v & Hv & Hbad). by exists vs, v.
Qed.

(** A well-formed table whose second row has an asset type outside the
    enumeration. *)
Definition with_bond : Table :=
  table.mkTable ["fraction"; "asstype"; "ticker"]
                [[VFloat 0.5; VStr "Equity"; VStr "A"];
                 [VFloat 0.5; VStr "Bond"; VStr "B"]].

Lemma with_bond_wf : table.wf with_bond.
Proof. repeat constructor. Qed.

(** The statement of C3 at [with_bond], which is rejected. *)
Lemma check_holdings_fails_iff_witness :
  table.wf with_bond /\
  check_holdings with_bond = Raise (AssertionError "") /\
  (is_ok (check_holdings with_bond) = false <->
   extra_column with_bond \/ required_missing with_bond \/
   no_identifier with_bond \/ bad_asstype with_bond).
Proof.
  split; [exact with_bond_wf|]. split; [reflexivity|].
  exact (proj2 (check_holdings_fails_iff with_bond with_bond_wf)).
Defined.

(** ** normalize_holdings_table *)

Lemma Qltb_lt (x y : Q) : Qltb x y = true <-> (x < y)%Q.
Proof.
  unfold Qltb. rewrite negb_true_iff, <- not_true_iff_false, Qle_bool_iff.
  split; [apply Qnot_le_lt | apply Qlt_not_le].
Qed.

Lemma fold_left_Qplus_acc (l : list Q) (a : Q) :
  (fold_left Qplus l a == a + fold_left Qplus l 0)%Q.
Proof.
  revert a. induction l as [|x l IH]; intros a; simpl.
  - ring.
  - rewrite (IH (a + x)%Q), (IH (0 + x)%Q). ring.
Qed.

Lemma py_sum_cons (x : Q) (l : list Q) : (py_sum (x :: l) == x + py_sum l)%Q.
Proof.
  unfold py_sum. simpl. rewrite fold_left_Qplus_acc. ring.
Qed.

Lemma py_sum_scale (k : Q) (l : list Q) :
  (py_sum (List.map (fun f => f * k) l) == py_sum l * k)%Q.
Proof.
  induction l as [|x l IH].
  - unfold py_sum. simpl. ring.
  - change (List.map (fun f => f * k) (x :: l))%Q
      with ((x * k)%Q :: List.map (fun f => (f * k)%Q) l).
    rewrite !py_sum_cons, IH. ring.
Qed.

(** Reading [row.fraction] as a number, for a row of a table whose fraction
    column is at position [i]. *)
Lemma getattr_fraction (cols : list string) (r : list value) (i : nat) (f : Q) :
  table.index "fraction" cols = Some i ->
  (table.getattr (table.mkRow cols r) "fraction" ≫= as_float = Ok f
   <-> r !! i = Some (VFloat f)).
Proof.
  intros Hi. unfold table.getattr. simpl. rewrite Hi.
  destruct (r !! i) as [[s|q|]|]; simpl; split; try discriminate; congruence.
Qed.

Lemma fractions_Forall2 (t : Table) (i : nat) (fs : list Q) :
  table.index "fraction" (table.columns t) = Some i ->
  (fractions t = Ok fs
   <-> Forall2 (fun r f => r !! i = Some (VFloat f)) (table.rows t) fs).
Proof.
  intros Hi. unfold fractions, table.iter. rewrite traverse_Ok.
  rewrite Forall2_fmap_l.
  split; intros H; (eapply Forall2_impl; [exact H|]);
    intros r f; by apply getattr_fraction.
Qed.

(** Without a fraction column only the empty table has fractions. *)
Lemma fractions_no_column (t : Table) (fs : list Q) :
  table.index "fraction" (table.columns t) = None ->
  fractions t = Ok fs -> fs = [].
Proof.
  intros Hi. unfold fractions, table.iter.
  destruct (table.rows t) as [|r rs]; simpl; [by intros [= <-]|].
  unfold table.getattr. simpl. rewrite Hi. discriminate.
Qed.

(** The rescaling of lines 42-43 on a table whose fractions are [fs]. *)
Lemma map_fraction_scale (t : Table) (i : nat) (fs : list Q) (k : Q) :
  table.index "fraction" (table.columns t) = Some i ->
  Forall2 (fun r f => r !! i = Some (VFloat f)) (table.rows t) fs ->
  exists t',
    table.map t "fraction" (fun f => py_mul f k) = Ok t' /\
    table.columns t' = table.columns t /\
    fractions t' = Ok (List.map (fun f => f * k)%Q fs).
Proof.
  intros Hi Hfs. unfold table.map. rewrite Hi. simpl.
  assert (Hrows : exists rows',
    traverse (fun r => v ← of_option SchemaError (r !! i);
                       v' ← py_mul v k; Ok (<[i := v']> r)) (table.rows t)
    = Ok rows' /\
    Forall2 (fun r' f => r' !! i = Some (VFloat (f * k)%Q)) rows' fs).
  { induction Hfs as [|r f rs fs' Hr _ (rows' & Hrows & IH)]; simpl.
    - exists []. split; [reflexivity|constructor].
    - rewrite Hr. simpl. rewrite Hrows.
      eexists. split; [reflexivity|]. constructor; [|exact IH].
      apply list_lookup_insert_eq. eapply lookup_lt_Some, Hr. }
  destruct Hrows as (rows' & -> & Hrows'). simpl.
  eexists. split; [reflexivity|]. split; [reflexivity|].
  apply (fractions_Forall2 _ i); [exact Hi|]. simpl.
  by apply Forall2_fmap_r.
Qed.

(** [normalize_holdings_table] once the fractions have been read: the log
    depends on the total alone, and the result is the rescaling. *)
Lemma normalize_holdings_table_unfold (t : Table) (fs : list Q) :
  fractions t = Ok fs ->
  normalize_holdings_table t =
  ((if negb (Qltb 0.98 (py_sum fs) && Qltb (py_sum fs) 1.02)
    then [ErrorTotalWeight (py_sum fs)] else []),
   scale ← py_div 1 (py_sum fs);
   table.map t "fraction" (fun f => py_mul f scale)).
Proof.
  intros Hfs. unfold normalize_holdings_table. rewrite Hfs.
  unfold lift, logging. simpl.
  destruct (negb _); simpl;
    destruct (py_div 1 (py_sum fs)); simpl; try reflexivity;
    by rewrite app_nil_r.
Qed.

Lemma py_div_nonzero (x y : Q) : ~ (y == 0)%Q -> py_div x y = Ok (x / y)%Q.
Proof.
  intros Hy. unfold py_div.
  destruct (Qeq_bool y 0) eqn:E; [|reflexivity].
  apply Qeq_bool_eq in E. contradiction.
Qed.

(** Fractions with a non-zero total come from a table that has a fraction
    column. *)
Lemma fractions_nonzero_index (t : Table) (fs : list Q) :
  fractions t = Ok fs -> ~ (py_sum fs == 0)%Q ->
  exists i, table.index "fraction" (table.columns t) = Some i.
Proof.
  intros Hfs Hs.
  destruct (table.index "fraction" (table.columns t)) as [i|] eqn:Hi;
    [by exists i|].
  exfalso. apply Hs. by rewrite (fractions_no_column t fs Hi Hfs).
Qed.

(** With a non-zero total the rescaling succeeds and multiplies every
    fraction by [1 / total]. *)
Lemma normalize_holdings_table_scaled (t : Table) (fs : list Q) :
  fractions t = Ok fs -> ~ (py_sum fs == 0)%Q ->
  exists t',
    snd (normalize_holdings_table t) = Ok t' /\
    table.columns t' = table.columns t /\
    fractions t' = Ok (List.map (fun f => f * (1 / py_sum fs))%Q fs).
Proof.
  intros Hfs Hs.
  rewrite (normalize_holdings_table_unfold t fs Hfs). simpl.
  rewrite py_div_nonzero by exact Hs. simpl.
  destruct (fractions_nonzero_index t fs Hfs Hs) as [i Hi].
  apply (map_fraction_scale t i fs _ Hi).
  by apply (fractions_Forall2 t i fs Hi).
Qed.

(** C2: for a table whose fractions sum to [s > 0], hence a non-empty one,
    [normalize_holdings_table] returns a table whose fractions sum to 1, in
    exact rational arithmetic, whatever [s] is. *)
Theorem normalize_holdings_table_sums_to_one (t : Table) (fs : list Q) :
  fractions t = Ok fs -> (0 < py_sum fs)%Q ->
  exists t' fs',
    snd (normalize_holdings_table t) = Ok t' /\
    fractions t' = Ok fs' /\
    (py_sum fs' == 1)%Q.
Proof.
  intros Hfs Hpos.
  assert (Hs : ~ (py_sum fs == 0)%Q).
  { intros Hz. rewrite Hz in Hpos. by apply Qlt_irrefl in Hpos. }
  destruct (normalize_holdings_table_scaled t fs Hfs Hs) as (t' & Hn & _ & Hf).
  exists t', (List.map (fun f => f * (1 / py_sum fs))%Q fs).
  split; [exact Hn|]. split; [exact Hf|].
  rewrite py_sum_scale. field. exact Hs.
Qed.

Lemma two_tickers_fractions : fractions two_tickers = Ok [0.5; 0.25]%Q.
Proof. reflexivity. Qed.

(** The statement of C2 at [two_tickers], whose total 0.75 lies outside
    (0.98, 1.02). *)
Lemma normalize_holdings_table_sums_to_one_witness :
  (0 < py_sum [0.5; 0.25])%Q /\
  ~ (0.98 < py_sum [0.5; 0.25])%Q /\
  exists t' fs',
    snd (normalize_holdings_table two_tickers) = Ok t' /\
    fractions t' = Ok fs' /\
    (py_sum fs' == 1)%Q.
Proof.
  assert (Hpos : (0 < py_sum [0.5; 0.25])%Q) by reflexivity.
  split; [exact Hpos|]. split; [by vm_compute|].
  exact (normalize_holdings_table_sums_to_one two_tickers [0.5; 0.25]%Q
           two_tickers_fractions Hpos).
Defined.

(** C9: the warning is logged if and only if the total of the fractions lies
    outside the open interval (0.98, 1.02); it is the only record logged; and
    whether or not it is logged, the table is rescaled by [1 / total]. *)
Theorem normalize_holdings_table_warning (t : Table) (fs : list Q) :
  fractions t = Ok fs ->
  (fst (normalize_holdings_table t) = [ErrorTotalWeight (py_sum fs)]
   <-> ~ (0.98 < py_sum fs /\ py_sum fs < 1.02)%Q) /\
  (fst (normalize_holdings_table t) = []
   <-> (0.98 < py_sum fs /\ py_sum fs < 1.02)%Q) /\
  (~ (py_sum fs == 0)%Q ->
   exists t',
     snd (normalize_holdings_table t) = Ok t' /\
     table.columns t' = table.columns t /\
     fractions t' = Ok (List.map (fun f => f * (1 / py_sum fs))%Q fs)).
Proof.
  intros Hfs.
  split; [|split; [|by apply normalize_holdings_table_scaled]];
    rewrite (normalize_holdings_table_unfold t fs Hfs); simpl;
    rewrite <- !Qltb_lt, <- andb_true_iff;
    destruct (Qltb 0.98 (py_sum fs) && Qltb (py_sum fs) 1.02); simpl;
    split; try done; intros H; by destruct H.
Qed.

(** The statement of C9 at [two_tickers]: the warning is logged and the
    table is rescaled all the same. *)
Lemma normalize_holdings_table_warning_witness :
  fst (normalize_holdings_table two_tickers)
  = [ErrorTotalWeight (py_sum [0.5; 0.25]%Q)] /\
  ~ (0.98 < py_sum [0.5; 0.25] /\ py_sum [0.5; 0.25] < 1.02)%Q /\
  exists t',
    snd (normalize_holdings_table two_tickers) = Ok t' /\
    table.columns t' = table.columns two_tickers /\
    fractions t' = Ok (List.map (fun f => f * (1 / py_sum [0.5; 0.25]))%Q
                                [0.5; 0.25]%Q).
Proof.
  split; [reflexivity|].
  split; [intros [H _]; by vm_compute in H|].
  refine (proj2 (proj2 (normalize_holdings_table_warning two_tickers
                          [0.5; 0.25]%Q two_tickers_fractions)) _).
  by vm_compute.
Defined.

(** C10: when the fractions of a table sum to zero, as they do for a table
    without rows, [normalize_holdings_table] returns no table: the division
    raises [ZeroDivisionError]. *)
Theorem normalize_holdings_table_zero_total (t : Table) (fs : list Q) :
  fractions t = Ok fs -> (py_sum fs == 0)%Q ->
  snd (normalize_holdings_table t) = Raise ZeroDivisionError.
Proof.
  intros Hfs Hz.
  rewrite (normalize_holdings_table_unfold t fs Hfs). simpl.
  unfold py_div. by rewrite (Qeq_eq_bool _ _ Hz).
Qed.

(** The statement of C10 at the table with the holdings schema and no
    row. *)
Lemma normalize_holdings_table_zero_total_witness :
  fractions (table.mkTable ["fraction"; "asstype"; "ticker"] []) = Ok [] /\
  (py_sum [] == 0)%Q /\
  snd (normalize_holdings_table
         (table.mkTable ["fraction"; "asstype"; "ticker"] []))
  = Raise ZeroDivisionError.
Proof.
  assert (Hz : (py_sum [] == 0)%Q) by reflexivity.
  split; [reflexivity|]. split; [exact Hz|].
  exact (normalize_holdings_table_zero_total
           (table.mkTable ["fraction"; "asstype"; "ticker"] []) []
           eq_refl Hz).
Defined.

(** ** The reporting truncation *)

(** The threshold of line 179. *)
Definition threshold (amount : list Q) : Q := (py_sum amount * 0.98)%Q.

(** Selecting by a mask computed from an array of the same length keeps as
    many elements as the mask has true entries. *)
Lemma mask_select_length {A} (p : Q -> bool) (a : list A) (cum : list Q) :
  length a = length cum ->
  length (mask_select a (List.map p cum))
  = length (filter (fun c => Is_true (p c)) cum).
Proof.
  revert cum. induction a as [|x a IH]; intros [|c cum] Hlen;
    simpl in *; try done.
  rewrite filter_cons. destruct (p c); simpl.
  - destruct (decide (Is_true true)) as [_|[]]; [|done].
    simpl. f_equal. apply IH. lia.
  - destruct (decide (Is_true false)) as [[]|_]. apply IH. lia.
Qed.

Lemma cumsum_from_length (acc : Q) (l : list Q) :
  length (cumsum_from acc l) = length l.
Proof.
  revert acc. induction l as [|x l IH]; intros acc; simpl; [done|].
  by rewrite IH.
Qed.

(** The count rule: the head size is the number of cumulative sums strictly
    below the threshold. *)
Lemma headsize_count (amount : list Q) :
  headsize amount
  = length (filter (fun c => Is_true (Qltb c (threshold amount)))
                   (cumsum amount)).
Proof.
  unfold headsize, threshold.
  apply (mask_select_length (fun c => Qltb c (py_sum amount * 0.98)%Q)).
  symmetry. apply cumsum_from_length.
Qed.

(** Cumulative sums of non-negative amounts never fall below their start. *)
Lemma cumsum_from_lower (acc : Q) (l : list Q) :
  Forall (fun a => (0 <= a)%Q) l ->
  Forall (fun c => (acc <= c)%Q) (cumsum_from acc l).
Proof.
  intros Hl. revert acc.
  induction Hl as [|x l Hx _ IH]; intros acc; simpl; constructor.
  - rewrite <- (Qplus_0_r acc) at 1. by apply Qplus_le_r.
  - eapply Forall_impl; [apply IH|]. simpl. intros c Hc.
    eapply Qle_trans; [|exact Hc].
    rewrite <- (Qplus_0_r acc) at 1. by apply Qplus_le_r.
Qed.

Lemma filter_none {A} (P : A -> Prop) `{!forall x, Decision (P x)}
    (l : list A) :
  Forall (fun x => ~ P x) l -> filter P l = [].
Proof.
  induction 1 as [|x l Hx _ IH]; [reflexivity|].
  rewrite filter_cons. by destruct (decide (P x)).
Qed.

(** For non-negative amounts the cumulative sums below a threshold form a
    prefix, whose length is their number. *)
Lemma cumsum_from_prefix (thr acc : Q) (l : list Q) :
  Forall (fun a => (0 <= a)%Q) l ->
  forall i c, cumsum_from acc l !! i = Some c ->
    ((i < length (filter (fun c => Is_true (Qltb c thr)) (cumsum_from acc l)))%nat
     <-> (c < thr)%Q).
Proof.
  intros Hl. revert acc.
  induction Hl as [|x l Hx Hl IH]; intros acc i c; simpl; [done|].
  rewrite filter_cons.
  destruct (Qltb (acc + x) thr) eqn:Hhead.
  - destruct (decide (Is_true true)) as [_|[]]; [|done].
    apply Qltb_lt in Hhead. destruct i as [|i]; simpl.
    + intros [= <-]. split; [done|lia].
    + intros Hc. rewrite <- (IH (acc + x)%Q i c Hc). lia.
  - destruct (decide (Is_true false)) as [[]|_].
    assert (Hthr : (thr <= acc + x)%Q).
    { apply Qnot_lt_le. intros Hlt. apply Qltb_lt in Hlt. congruence. }
    pose proof (cumsum_from_lower (acc + x)%Q l Hl) as Hlow.
    assert (Hge : forall c', c' ∈ cumsum_from (acc + x)%Q l -> ~ (c' < thr)%Q).
    { intros c' Hc'. rewrite Forall_forall in Hlow.
      apply Qle_not_lt. eapply Qle_trans; [exact Hthr|]. by apply Hlow. }
    rewrite filter_none.
    2:{ apply Forall_forall. intros c' Hc' Hlt.
        apply Is_true_true, Qltb_lt in Hlt. by apply (Hge c'). }
    simpl. intros Hc. split; [lia|]. intros Hlt. exfalso.
    destruct i as [|i]; simpl in Hc.
    + injection Hc as <-. by apply Qle_not_lt in Hthr.
    + apply (Hge c); [|done]. by eapply list_elem_of_lookup_2.
Qed.

(** The statement of C4 read literally: the rows kept by [head(headsize)],
    those at the positions below [headsize], are exactly the rows whose
    cumulative sum is strictly below the threshold. *)
Definition keeps_rows_below_threshold (amount : list Q) : Prop :=
  forall i c, cumsum amount !! i = Some c ->
    ((i < headsize amount)%nat <-> (c < threshold amount)%Q).

(** C4, as the specification states it, fails for a portfolio that is net
    short: with the amounts 10 and -20 the total is -10 and the threshold
    -9.8; only the second cumulative sum, -10, is below it, so one row is
    kept, the first, whose cumulative sum 10 is not below the threshold. *)
Lemma keeps_rows_below_threshold_net_short :
  headsize [10; -20]%Q = 1%nat /\
  cumsum [10; -20]%Q = [0 + 10; 0 + 10 + -20]%Q /\
  ~ keeps_rows_below_threshold [10; -20]%Q.
Proof.
  split; [reflexivity|]. split; [reflexivity|].
  intros H. destruct (H 0%nat (0 + 10)%Q eq_refl) as [Hlt _].
  assert (Hone : (0 < headsize [10; -20]%Q)%nat) by (vm_compute; lia).
  specialize (Hlt Hone). by vm_compute in Hlt.
Qed.

(** C4, amended: the truncation keeps the first [headsize] rows, where
    [headsize] is the number of rows whose cumulative sum is strictly below
    0.98 times the total; when no amount is negative these are exactly the
    rows whose cumulative sum is strictly below that threshold; and for the
    amounts 500, 300, 150, 50 the first 3 rows are kept. *)
Theorem headsize_truncation (amount : list Q) :
  headsize amount
  = length (filter (fun c => Is_true (Qltb c (threshold amount)))
                   (cumsum amount)) /\
  (forall t, table.rows (table.head t (headsize amount))
             = take (headsize amount) (table.rows t)) /\
  (Forall (fun a => (0 <= a)%Q) amount -> keeps_rows_below_threshold amount) /\
  headsize [500; 300; 150; 50]%Q = 3%nat.
Proof.
  split; [apply headsize_count|]. split; [reflexivity|].
  split; [|reflexivity].
  intros Hpos i c Hc. rewrite headsize_count.
  by apply cumsum_from_prefix.
Qed.

(** The amended statement of C4 at the amounts of the specification. *)
Lemma headsize_truncation_witness :
  Forall (fun a => (0 <= a)%Q) [500; 300; 150; 50]%Q /\
  keeps_rows_below_threshold [500; 300; 150; 50]%Q.
Proof.
  assert (Hpos : Forall (fun a => (0 <= a)%Q) [500; 300; 150; 50]%Q).
  { repeat constructor; by vm_compute. }
  split; [exact Hpos|].
  exact (proj1 (proj2 (proj2 (headsize_truncation [500; 300; 150; 50]%Q)))
               Hpos).
Defined.

(** ** The conversion of fractions to amounts *)

(** Selecting present columns of a table that satisfies the invariant
    succeeds; every new row reads the old one at the selected positions. *)
Lemma select_spec (t : Table) (names : list string) :
  table.wf t ->
  Forall (fun n => n ∈ table.columns t) names ->
  exists idxs,
    Forall2 (fun n i => table.index n (table.columns t) = Some i) names idxs /\
    table.select t names =
    Ok (table.mkTable names
          (List.map (fun r => List.map (fun i => default VNone (r !! i)) idxs)
                    (table.rows t))).
Proof.
  intros Hwf Hnames.
  assert (Hidx : exists idxs,
    Forall2 (fun n i => table.index n (table.columns t) = Some i) names idxs).
  { induction Hnames as [|n names Hn _ (idxs & IH)]; [by exists []|].
    destruct (index_elem_of _ _ Hn) as [i Hi].
    exists (i :: idxs). by constructor. }
  destruct Hidx as (idxs & Hidx). exists idxs. split; [exact Hidx|].
  unfold table.select.
  assert (Htr : traverse (fun n => of_option SchemaError
                                     (table.index n (table.columns t))) names
                = Ok idxs).
  { apply traverse_Ok. eapply Forall2_impl; [exact Hidx|].
    simpl. by intros n i ->. }
  rewrite Htr. simpl.
  rewrite (traverse_total _
             (fun r => List.map (fun i => default VNone (r !! i)) idxs));
    [reflexivity|].
  eapply Forall_impl; [exact Hwf|]. simpl. intros r Hr.
  apply traverse_total, Forall_forall. intros i Hi.
  apply list_elem_of_lookup in Hi as [k Hk].
  destruct (Forall2_lookup_r _ _ _ _ _ Hidx Hk) as (n & _ & Hn).
  apply index_Some_lt in Hn.
  destruct (lookup_lt_is_Some_2 r i) as [v Hv]; [lia|].
  by rewrite Hv.
Qed.

(** Creating a fresh column succeeds when the function does on every row. *)
Lemma create_Ok (t : Table) (c : string) (fn : Row -> res value)
    (vs : list value) :
  c ∉ table.columns t ->
  Forall2 (fun r v => fn (table.mkRow (table.columns t) r) = Ok v)
          (table.rows t) vs ->
  table.create t c fn =
  Ok (table.mkTable (table.columns t ++ [c])
                    (zip_with (fun r v => r ++ [v]) (table.rows t) vs)).
Proof.
  intros Hc Hvs. unfold table.create.
  destruct (decide (c ∈ table.columns t)); [contradiction|].
  assert (Htr : traverse (fun r => v ← fn (table.mkRow (table.columns t) r);
                                   Ok (r ++ [v])) (table.rows t)
                = Ok (zip_with (fun r v => r ++ [v]) (table.rows t) vs)).
  { induction Hvs as [|r v rs vs Hr _ IH]; simpl; [reflexivity|].
    by rewrite Hr, IH. }
  by rewrite Htr.
Qed.

Lemma traverse_as_float (g : Q -> Q) (fs : list Q) :
  traverse as_float (List.map (fun f => VFloat (g f)) fs) = Ok (List.map g fs).
Proof.
  induction fs as [|f fs IH]; simpl; [reflexivity|]. by rewrite IH.
Qed.

(** The columns of the table each position contributes. *)
Definition AMOUNT_COLUMNS : list string :=
  ["etf"; "account"; "asstype"; "name"; "ticker"; "sedol"; "isin"; "cusip";
   "amount"].

Lemma drop_fraction (v0 v1 v2 v3 v4 v5 v6 v7 v8 v : value) :
  table.drop_cells ["fraction"] (COLUMNS ++ ["amount"])
                   [v0; v1; v2; v3; v4; v5; v6; v7; v8; v]
  = [v0; v1; v3; v4; v5; v6; v7; v8; v].
Proof. vm_compute. reflexivity. Qed.

(** Lines 153-155 on rows that have the canonical nine columns: the amount
    takes the place of the fraction, at the end of the row. *)
Lemma amount_rows (rows : list (list value)) (vs : list value) :
  Forall (fun r => length r = 9%nat) rows ->
  length rows = length vs ->
  traverse (fun r => of_option SchemaError (r !! 8%nat))
    (List.map (table.drop_cells ["fraction"] (COLUMNS ++ ["amount"]))
              (zip_with (fun r v => r ++ [v]) rows vs))
  = Ok vs.
Proof.
  intros Hrows. revert vs.
  induction Hrows as [|r rows Hr _ IH]; intros [|v vs] Hlen;
    simpl in Hlen; try done.
  injection Hlen as Hlen.
  do 9 (destruct r as [|? r]; [done|]). destruct r; [|done].
  cbn [zip_with List.map app]. rewrite drop_fraction. cbn [traverse].
  rewrite (IH vs Hlen). reflexivity.
Qed.

Lemma bind_Ok {A B} (a : A) (f : A -> res B) : (Ok a ≫= f) = f a.
Proof. reflexivity. Qed.

(** A table accepted by [check_holdings] has no column outside the allowed
    ones and has both required columns. *)
Lemma check_holdings_Ok_columns (h : Table) :
  check_holdings h = Ok () -> ~ extra_column h /\ ~ required_missing h.
Proof.
  unfold check_holdings.
  pose proof (check_extra h) as Ha. pose proof (check_required h) as Hb.
  destruct (bool_decide (_ ∖ _ = ∅)); simpl; [|discriminate].
  destruct (bool_decide (_ ⊆ _)); simpl; [|discriminate].
  intros _. split; intros H; [apply Ha in H|apply Hb in H]; discriminate.
Qed.

(** Lines 146-148: the missing identifier columns and the two provenance
    columns are appended to the columns and to every row. *)
Lemma provenance_columns {B} (row : Position) (h : Table)
    (k : Table -> res B) :
  ~ extra_column h ->
  (holdings ← add_missing_columns h;
   holdings ← table.create holdings "etf" (fun _ => Ok (VStr (ticker row)));
   holdings ← table.create holdings "account"
                (fun _ => Ok (VStr (account row)));
   k holdings)
  = k (table.mkTable
         (((table.columns h ++ missing IDCOLUMNS h) ++ ["etf"]) ++ ["account"])
         (List.map
            (fun r => ((r ++ replicate (length (missing IDCOLUMNS h)) (VStr ""))
                         ++ [VStr (ticker row)]) ++ [VStr (account row)])
            (table.rows h))).
Proof.
  intros Hextra.
  assert (Hfresh : forall c, c ∉ ["asstype"; "fraction"] ++ IDCOLUMNS ->
                             c ∉ table.columns h ++ missing IDCOLUMNS h).
  { intros c Hc. rewrite not_elem_of_app. split.
    - intros Hin. apply Hextra. by exists c.
    - unfold missing. rewrite list_elem_of_filter. intros [_ Hin].
      apply Hc. apply elem_of_app. by right. }
  rewrite add_missing_columns_spec, bind_Ok.
  rewrite create_const; cbn [table.columns table.rows].
  2:{ apply Hfresh. apply (bool_decide_unpack _). vm_compute. exact I. }
  rewrite bind_Ok.
  rewrite create_const; cbn [table.columns table.rows].
  2:{ rewrite not_elem_of_app. split.
      - apply Hfresh. apply (bool_decide_unpack _). vm_compute. exact I.
      - apply (bool_decide_unpack _). vm_compute. exact I. }
  by rewrite bind_Ok, !map_map.
Qed.

Lemma getattr_COLUMNS_fraction (v0 v1 v2 v3 v4 v5 v6 v7 v8 : value) :
  table.getattr (table.mkRow COLUMNS [v0; v1; v2; v3; v4; v5; v6; v7; v8])
                "fraction" = Ok v2.
Proof. vm_compute. reflexivity. Qed.

Lemma amount_columns_eq :
  filter (fun c => c ∉ ["fraction"]) (COLUMNS ++ ["amount"]) = AMOUNT_COLUMNS.
Proof. vm_compute. reflexivity. Qed.

(** Lines 146-155 on a table accepted by [check_holdings]: the conversion
    succeeds, yields the columns [AMOUNT_COLUMNS] and one row per holding,
    and every amount is the fraction times [number * price]. *)
Lemma to_amounts_spec (row : Position) (h : Table) (fs : list Q) :
  table.wf h -> check_holdings h = Ok () -> fractions h = Ok fs ->
  exists t,
    to_amounts row h = Ok t /\
    table.columns t = AMOUNT_COLUMNS /\
    length (table.rows t) = length (table.rows h) /\
    amount_array t
    = Ok (List.map (fun f => f * (number row * price row))%Q fs).
Proof.
  intros Hwf Hok Hfs.
  destruct (check_holdings_Ok_columns h Hok) as [Hextra Hreq].
  assert (Hfrac : "fraction" ∈ table.columns h).
  { destruct (decide ("fraction" ∈ table.columns h)); [done|].
    exfalso. apply Hreq. by right. }
  assert (Hass : "asstype" ∈ table.columns h).
  { destruct (decide ("asstype" ∈ table.columns h)); [done|].
    exfalso. apply Hreq. by left. }
  destruct (index_elem_of _ _ Hfrac) as [i Hi].
  apply (fractions_Forall2 h i fs Hi) in Hfs.
  unfold to_amounts. rewrite provenance_columns by exact Hextra.
  set (pad := replicate (length (missing IDCOLUMNS h)) (VStr "")).
  set (ext := fun r : list value =>
                ((r ++ pad) ++ [VStr (ticker row)]) ++ [VStr (account row)]).
  set (cs3 := ((table.columns h ++ missing IDCOLUMNS h) ++ ["etf"])
                ++ ["account"]).
  set (t3 := table.mkTable cs3 (List.map ext (table.rows h))).
  assert (Hwf3 : table.wf t3).
  { unfold table.wf, t3. cbn [table.columns table.rows].
    apply Forall_map. eapply Forall_impl; [exact Hwf|].
    intros r Hr. cbv beta in Hr. unfold ext, cs3, pad. cbv beta.
    rewrite !length_app, length_replicate. cbn [length]. lia. }
  assert (Hcols3 : Forall (fun n => n ∈ table.columns t3) COLUMNS).
  { unfold t3, cs3. cbn [table.columns].
    assert (Hid : forall c, c ∈ IDCOLUMNS ->
              c ∈ ((table.columns h ++ missing IDCOLUMNS h) ++ ["etf"])
                    ++ ["account"]).
    { intros c Hc. do 2 (apply elem_of_app; left). by apply missing_covers. }
    unfold COLUMNS. apply Forall_app. split.
    - repeat constructor.
      + apply elem_of_app. left. apply elem_of_app. right. left.
      + apply elem_of_app. right. left.
      + do 3 (apply elem_of_app; left). exact Hfrac.
      + do 3 (apply elem_of_app; left). exact Hass.
    - apply Forall_forall. exact Hid. }
  destruct (select_spec t3 COLUMNS Hwf3 Hcols3) as (idxs & Hidx & Hsel).
  rewrite Hsel, bind_Ok.
  assert (Hi3 : table.index "fraction" cs3 = Some i).
  { unfold cs3. by do 3 apply index_app_l. }
  unfold COLUMNS, IDCOLUMNS in Hidx. simpl in Hidx.
  repeat match type of Hidx with
         | Forall2 _ (_ :: _) _ =>
             apply Forall2_cons_inv_l in Hidx as (? & ? & ? & Hidx & ->)
         end.
  apply Forall2_nil_inv_l in Hidx as ->.
  match goal with
  | H : table.index "fraction" cs3 = Some ?j |- _ =>
      assert (j = i) as -> by congruence
  end.
  cbn [table.rows].
  set (vs := List.map (fun f => VFloat (f * (number row * price row))%Q) fs).
  erewrite (create_Ok _ "amount" _ vs); cbn [table.columns table.rows].
  2:{ apply (bool_decide_unpack _). vm_compute. exact I. }
  2:{ unfold vs, t3. cbn [table.rows].
      rewrite !Forall2_fmap_l, Forall2_fmap_r.
      eapply Forall2_impl; [exact Hfs|].
      intros r f Hr. cbn [List.map compose].
      rewrite getattr_COLUMNS_fraction.
      assert (Hext : ext r !! i = Some (VFloat f)).
      { unfold ext. pose proof (lookup_lt_Some _ _ _ Hr) as Hlt.
        rewrite !lookup_app_l; [exact Hr|lia|..];
          rewrite ?length_app; lia. }
      by rewrite Hext. }
  rewrite bind_Ok. unfold table.delete. cbn [table.columns table.rows].
  destruct (decide (Forall _ ["fraction"])) as [_|Hn].
  2:{ exfalso. apply Hn. repeat constructor. }
  rewrite amount_columns_eq.
  eexists. split; [reflexivity|]. cbn [table.columns table.rows].
  split; [reflexivity|]. split.
  - rewrite length_map, length_zip_with. unfold vs, t3. cbn [table.rows].
    rewrite !length_map. apply Forall2_length in Hfs. lia.
  - unfold amount_array, table.array, table.values.
    cbn [table.columns table.rows].
    change (table.index "amount" AMOUNT_COLUMNS) with (Some 8%nat).
    cbn [of_option]. rewrite bind_Ok.
    rewrite amount_rows.
    + rewrite bind_Ok. unfold vs. apply traverse_as_float.
    + apply Forall_map, Forall_forall. reflexivity.
    + unfold vs, t3. cbn [table.rows]. rewrite !length_map.
      by apply Forall2_length in Hfs.
Qed.

(** ** The driver *)

(** The holdings table of a direct holding (lines 121-123). *)
Definition direct_holding (tick : string) : Table :=
  table.mkTable ["fraction"; "asstype"; "ticker"]
                [[VFloat 1.0; VStr "Equity"; VStr tick]].

(** Every raw holdings table that reaches the conversion is accepted by
    [check_holdings], and no record about the total weight was logged for
    it. *)
Lemma raw_holdings_checked (env : Env) (row : Position) (log : list event)
    (h : Table) :
  raw_holdings env row = (log, Ok (Some h)) ->
  check_holdings h = Ok () /\ forall total, ErrorTotalWeight total ∉ log.
Proof.
  unfold raw_holdings.
  destruct (truthy (issuer row)); cbn [negb].
  - destruct (MODULES env !! default "" (issuer row)) as [d|];
      [|intros [=]].
    destruct (getlatest env (ticker row)) as [filename|]; [|intros [=]].
    destruct (parse d) as [p|]; [|intros [=]].
    unfold lift, logging. cbn.
    destruct (p filename) as [h'|e]; cbn; [|intros [=]].
    destruct (check_holdings h') as [[]|e] eqn:Hcheck; cbn; [|intros [=]].
    intros [= <- <-]. split; [exact Hcheck|].
    intros total Hin. apply elem_of_cons in Hin as [[=]|Hin].
    by apply elem_of_nil in Hin.
  - intros [= <- <-]. split; [by vm_compute|].
    intros total Hin. by apply elem_of_nil in Hin.
Qed.

(** The loop on a single position whose raw holdings are [h]. *)
Lemma main_loop_single (env : Env) (ignore_shorts : bool) (row : Position)
    (log : list event) (h t : Table) :
  Qltb (number row) 0 && ignore_shorts = false ->
  raw_holdings env row = (log, Ok (Some h)) ->
  to_amounts row h = Ok t ->
  main_loop env ignore_shorts [row] [] = (log, Ok [t]).
Proof.
  intros Hshort Hraw Hamounts. cbn [main_loop].
  rewrite Hshort, Hraw. unfold mbind, M_bind, lift. cbv beta iota.
  rewrite Hamounts. cbn. by rewrite app_nil_r.
Qed.

(** A position does not take part in the loop when it is short and short
    positions are ignored. *)
Lemma main_loop_skip (env : Env) (row : Position) (pre post : list Position)
    (alltables : list Table) :
  (number row < 0)%Q ->
  main_loop env true (pre ++ row :: post) alltables
  = main_loop env true (pre ++ post) alltables.
Proof.
  intros Hneg. apply Qltb_lt in Hneg. revert alltables.
  induction pre as [|p pre IH]; intros alltables; cbn [app main_loop].
  - by rewrite Hneg.
  - destruct (Qltb (number p) 0 && true); [apply IH|].
    unfold mbind, M_bind.
    destruct (raw_holdings env p) as [l [[h|]|e]]; [| |reflexivity].
    + unfold lift. destruct (to_amounts p h) as [t|e]; [|reflexivity].
      by rewrite IH.
    + by rewrite IH.
Qed.

(** An environment without any issuer, and a direct holding of 10 units of
    ABC at a price of 5. *)
Definition no_issuers : Env := mkEnv ∅ (fun _ => None) (fun t => Ok t).
Definition abc : Position := mkPosition "ABC" "taxable" None 5 10.

(** C5: for a position without issuer the driver synthesizes the one-row
    table with fraction 1.0, asset type Equity and the position's ticker;
    and a single position without issuer, with ticker ABC, 10 units and
    price 5 yields a full table of exactly one row, with amount 50.0, asset
    type Equity and ticker ABC. *)
Theorem no_issuer_direct_holding (env : Env) (row : Position) :
  issuer row = None \/ issuer row = Some "" ->
  raw_holdings env row = ([], Ok (Some (direct_holding (ticker row)))) /\
  forall (ignore_shorts : bool) (acct : string),
    full_table env ignore_shorts [mkPosition "ABC" acct None 5 10]
    = ([LogFullTotal 50.0],
       Ok (table.mkTable
             ["etf"; "account"; "asstype"; "name"; "ticker"; "sedol"; "isin";
              "cusip"; "amount"]
             [[VStr "ABC"; VStr acct; VStr "Equity"; VStr ""; VStr "ABC";
               VStr ""; VStr ""; VStr ""; VFloat 50.0]])).
Proof.
  intros Hissuer. split.
  - unfold raw_holdings. by destruct Hissuer as [-> | ->].
  - intros [] acct; vm_compute; reflexivity.
Qed.

(** The statement of C5 at the position [abc]. *)
Lemma no_issuer_direct_holding_witness :
  issuer abc = None /\
  raw_holdings no_issuers abc = ([], Ok (Some (direct_holding "ABC"))) /\
  full_table no_issuers true [abc]
  = ([LogFullTotal 50.0],
     Ok (table.mkTable
           ["etf"; "account"; "asstype"; "name"; "ticker"; "sedol"; "isin";
            "cusip"; "amount"]
           [[VStr "ABC"; VStr "taxable"; VStr "Equity"; VStr ""; VStr "ABC";
             VStr ""; VStr ""; VStr ""; VFloat 50.0]])).
Proof.
  split; [reflexivity|].
  destruct (no_issuer_direct_holding no_issuers abc (or_introl eq_refl))
    as [Hraw Hfull].
  split; [exact Hraw|]. exact (Hfull true "taxable").
Defined.

(** C6: with short positions ignored, a position with a negative number of
    units is skipped: the loop, the full table and the whole run, with their
    logs, are the same as without the position, and the position alone
    yields no table and no log record. *)
Theorem short_position_skipped (env : Env) (row : Position)
    (pre post : list Position) (alltables : list Table) :
  (number row < 0)%Q ->
  main_loop env true (pre ++ row :: post) alltables
  = main_loop env true (pre ++ post) alltables /\
  main_loop env true [row] alltables = ([], Ok alltables) /\
  full_table env true (pre ++ row :: post) = full_table env true (pre ++ post) /\
  main env true (pre ++ row :: post) = main env true (pre ++ post).
Proof.
  intros Hneg.
  split; [by apply main_loop_skip|]. split.
  - apply (main_loop_skip env row [] [] alltables Hneg).
  - assert (Hfull : full_table env true (pre ++ row :: post)
                    = full_table env true (pre ++ post)).
    { unfold full_table. by rewrite main_loop_skip. }
    split; [exact Hfull|]. unfold main. by rewrite Hfull.
Qed.

(** A short position of 5 units. *)
Definition short_abc : Position := mkPosition "ABC" "taxable" None 5 (-5).

(** The statement of C6 at [short_abc], alone and next to [abc]. *)
Lemma short_position_skipped_witness :
  (number short_abc < 0)%Q /\
  main_loop no_issuers true [short_abc] [] = ([], Ok []) /\
  full_table no_issuers true ([abc] ++ short_abc :: [])
  = full_table no_issuers true ([abc] ++ []).
Proof.
  assert (Hneg : (number short_abc < 0)%Q) by reflexivity.
  split; [exact Hneg|].
  destruct (short_position_skipped no_issuers short_abc [abc] [] [] Hneg)
    as (_ & Halone & Hfull & _).
  split; [exact Halone|exact Hfull].
Defined.

(** A fund of issuer X whose published holdings cover three quarters of the
    fund, and an environment that knows the issuer and the fund's file. *)
Definition three_quarters : Table :=
  table.mkTable ["fraction"; "asstype"; "ticker"]
                [[VFloat 0.5; VStr "Equity"; VStr "A"];
                 [VFloat 0.25; VStr "Equity"; VStr "B"]].
Definition issuer_x : Env :=
  mkEnv {[ "X" := mkDownloader (Some (fun _ => Ok three_quarters)) ]}
        (fun _ => Some "FUND.csv")
        (fun t => Ok t).
Definition fund : Position := mkPosition "FUND" "taxable" (Some "X") 5 10.

(** C1, as the specification states it, fails: the driver never calls
    [normalize_holdings_table].  The position [fund], 10 units at price 5,
    whose fractions sum to 0.75, contributes 0.75 * 50 and not 50, and no
    record about the total weight is logged. *)
Lemma fund_not_normalized :
  fractions three_quarters = Ok [0.5; 0.25]%Q /\
  exists t amounts,
    full_table issuer_x false [fund]
    = ([LogParsing "FUND.csv" "X"; LogFullTotal (py_sum amounts)], Ok t) /\
    amount_array t = Ok amounts /\
    (py_sum amounts == 0.75 * (number fund * price fund))%Q /\
    ~ (py_sum amounts == number fund * price fund)%Q.
Proof.
  split; [reflexivity|].
  eexists _, [0.5 * (10 * 5); 0.25 * (10 * 5)]%Q.
  split; [by vm_compute|]. split; [by vm_compute|].
  split; by vm_compute.
Qed.

(** C1, amended: every position that the driver processes has a raw
    holdings table accepted by [check_holdings] (a parsed table is checked,
    a synthesized one passes), and the driver converts its fractions as they
    are, without normalizing them: a well-formed table with numeric
    fractions [fs] contributes one table whose amounts are the fractions
    times [number * price], so their total is the sum of the fractions times
    [number * price], and no total-weight record is logged. *)
Theorem position_amounts (env : Env) (ignore_shorts : bool) (row : Position)
    (log : list event) (h : Table) (fs : list Q) :
  Qltb (number row) 0 && ignore_shorts = false ->
  raw_holdings env row = (log, Ok (Some h)) ->
  table.wf h -> fractions h = Ok fs ->
  check_holdings h = Ok () /\
  (forall total, ErrorTotalWeight total ∉ log) /\
  exists t amounts,
    main_loop env ignore_shorts [row] [] = (log, Ok [t]) /\
    amount_array t = Ok amounts /\
    amounts = List.map (fun f => f * (number row * price row))%Q fs /\
    (py_sum amounts == py_sum fs * (number row * price row))%Q.
Proof.
  intros Hshort Hraw Hwf Hfs.
  destruct (raw_holdings_checked env row log h Hraw) as [Hcheck Hlog].
  split; [exact Hcheck|]. split; [exact Hlog|].
  destruct (to_amounts_spec row h fs Hwf Hcheck Hfs) as (t & Ht & _ & _ & Ha).
  exists t, (List.map (fun f => f * (number row * price row))%Q fs).
  split; [by apply (main_loop_single env ignore_shorts row log h t)|].
  split; [exact Ha|]. split; [reflexivity|]. apply py_sum_scale.
Qed.

Lemma three_quarters_wf : table.wf three_quarters.
Proof. repeat constructor. Qed.

(** The amended statement of C1 at the position [fund]. *)
Lemma position_amounts_witness :
  exists t amounts,
    main_loop issuer_x false [fund] [] = ([LogParsing "FUND.csv" "X"], Ok [t]) /\
    amount_array t = Ok amounts /\
    amounts = List.map (fun f => f * (number fund * price fund))%Q
                       [0.5; 0.25]%Q /\
    (py_sum amounts == py_sum [0.5; 0.25] * (number fund * price fund))%Q.
Proof.
  exact (proj2 (proj2 (position_amounts issuer_x false fund
                         [LogParsing "FUND.csv" "X"] three_quarters
                         [0.5; 0.25]%Q eq_refl eq_refl three_quarters_wf
                         eq_refl))).
Defined.

(** * Further properties of the code *)

(** ** add_missing_columns, continued *)

Lemma traverse_ext_Forall {A B} (f g : A -> res B) (l : list A) :
  Forall (fun x => f x = g x) l -> traverse f l = traverse g l.
Proof.
  induction 1 as [|x l Hx _ IH]; simpl; [reflexivity|]. by rewrite Hx, IH.
Qed.

Lemma traverse_map {A B C} (f : B -> res C) (g : A -> B) (l : list A) :
  traverse f (List.map g l) = traverse (fun x => f (g x)) l.
Proof.
  induction l as [|x l IH]; simpl; [reflexivity|]. by rewrite IH.
Qed.

(** X1: [add_missing_columns] never reorders, renames or rewrites what the
    table holds: the old columns stay in front, followed by the identifier
    columns the table lacked, in the order of [IDCOLUMNS]; there are as many
    rows as before; every old row is the beginning of the new one; and the
    table invariant is kept. *)
Theorem add_missing_columns_preserves (t : Table) :
  exists t',
    add_missing_columns t = Ok t' /\
    table.columns t' =
      table.columns t ++ filter (fun c => c ∉ table.columns t) IDCOLUMNS /\
    length (table.rows t') = length (table.rows t) /\
    Forall2 (fun r r' => r `prefix_of` r') (table.rows t) (table.rows t') /\
    (table.wf t -> table.wf t').
Proof.
  eexists. split; [apply add_missing_columns_spec|].
  cbn [table.columns table.rows].
  split; [reflexivity|]. split; [apply length_map|]. split.
  - apply Forall2_fmap_r, Forall_Forall2_diag, Forall_forall.
    intros r _. by apply prefix_app_r.
  - unfold table.wf. cbn [table.columns table.rows]. intros Hwf.
    apply Forall_map. eapply Forall_impl; [exact Hwf|].
    intros r Hr. cbv beta in Hr |- *.
    rewrite !length_app, length_replicate. lia.
Qed.

(** The invariant part of X1 at [two_tickers]. *)
Lemma add_missing_columns_preserves_witness :
  table.wf two_tickers /\
  exists t',
    add_missing_columns two_tickers = Ok t' /\
    table.columns t' = ["fraction"; "ticker"; "name"; "sedol"; "isin"; "cusip"] /\
    table.wf t'.
Proof.
  split; [exact two_tickers_wf|].
  destruct (add_missing_columns_preserves two_tickers)
    as (t' & Ht' & Hcols & _ & _ & Hwf).
  exists t'. split; [exact Ht'|]. split; [|exact (Hwf two_tickers_wf)].
  rewrite Hcols. vm_compute. reflexivity.
Defined.

(** X2: [add_missing_columns] returns its argument unchanged exactly when
    the table already has all five identifier columns. *)
Theorem add_missing_columns_unchanged_iff (t : Table) :
  add_missing_columns t = Ok t <-> forall c, c ∈ IDCOLUMNS -> c ∈ table.columns t.
Proof.
  rewrite add_missing_columns_spec. split.
  - intros Heq c Hc.
    assert (Hcols : table.columns t ++ missing IDCOLUMNS t
                    = table.columns t ++ []).
    { rewrite app_nil_r. injection Heq as Heq.
      exact (f_equal table.columns Heq). }
    apply app_inv_head in Hcols.
    destruct (decide (c ∈ table.columns t)) as [|Hn]; [done|].
    assert (c ∈ missing IDCOLUMNS t) as Hm.
    { unfold missing. by apply list_elem_of_filter. }
    rewrite Hcols in Hm. by apply elem_of_nil in Hm.
  - intros Hall. rewrite missing_nil by (by apply Forall_forall).
    destruct t as [cs rs]. cbn. rewrite app_nil_r. f_equal. f_equal.
    transitivity (List.map id rs); [|apply map_id].
    apply map_ext. intros r. apply app_nil_r.
Qed.

(** A table with all identifier columns. *)
Definition all_identifiers : Table :=
  table.mkTable ["fraction"; "asstype"; "name"; "ticker"; "sedol"; "isin";
                 "cusip"]
                [[VFloat 1.0; VStr "Equity"; VStr "Acme"; VStr "ACM";
                  VStr "0000001"; VStr "US0000000001"; VStr "000000001"]].

(** X2 at [all_identifiers], which is returned as it is, and at
    [two_tickers], which is not. *)
Lemma add_missing_columns_unchanged_iff_witness :
  add_missing_columns all_identifiers = Ok all_identifiers /\
  add_missing_columns two_tickers <> Ok two_tickers.
Proof.
  split.
  - apply add_missing_columns_unchanged_iff.
    intros c Hc. unfold IDCOLUMNS in Hc.
    repeat (apply elem_of_cons in Hc as [->|Hc];
            [apply (bool_decide_unpack _); vm_compute; exact I|]).
    by apply elem_of_nil in Hc.
  - intros Heq.
    pose proof (proj1 (add_missing_columns_unchanged_iff two_tickers) Heq
                      "name") as Hname.
    assert (Hin : "name" ∈ IDCOLUMNS) by (left).
    specialize (Hname Hin). revert Hname.
    apply (bool_decide_unpack _). vm_compute. exact I.
Defined.

(** X3: on a table that satisfies the invariant, [add_missing_columns]
    leaves the values of every column the table already had as they were. *)
Theorem add_missing_columns_values (t : Table) (c : string) :
  table.wf t -> c ∈ table.columns t ->
  exists t',
    add_missing_columns t = Ok t' /\
    table.values t' c = table.values t c.
Proof.
  intros Hwf Hc. eexists. split; [apply add_missing_columns_spec|].
  unfold table.values. cbn [table.columns table.rows].
  destruct (index_elem_of _ _ Hc) as [i Hi].
  rewrite (index_app_l _ _ _ _ Hi), Hi. cbn [of_option]. rewrite !bind_Ok.
  rewrite traverse_map. apply traverse_ext_Forall.
  eapply Forall_impl; [exact Hwf|]. intros r Hr. cbv beta in Hr |- *.
  rewrite lookup_app_l; [reflexivity|].
  apply index_Some_lt in Hi. lia.
Qed.

(** X3 at the ticker column of [two_tickers]. *)
Lemma add_missing_columns_values_witness :
  exists t',
    add_missing_columns two_tickers = Ok t' /\
    table.values t' "ticker" = Ok [VStr "A"; VStr "B"].
Proof.
  assert (Hin : "ticker" ∈ table.columns two_tickers) by (right; left).
  destruct (add_missing_columns_values two_tickers "ticker" two_tickers_wf Hin)
    as (t' & Ht' & Hv).
  exists t'. split; [exact Ht'|]. rewrite Hv. reflexivity.
Defined.

(** ** check_holdings, continued *)

(** X4: the checks of [check_holdings] are made in a fixed order, so the
    assertion that fails names the first violation: columns outside the
    allowed ones come before missing required columns, which come before a
    missing identifier column. *)
Theorem check_holdings_first_violation (t : Table) :
  (extra_column t ->
   check_holdings t = Raise (AssertionError "Extra columns found")) /\
  (~ extra_column t -> required_missing t ->
   check_holdings t = Raise (AssertionError "Required columns missing")) /\
  (~ extra_column t -> ~ required_missing t -> no_identifier t ->
   check_holdings t = Raise (AssertionError "No ids columns found")).
Proof.
  unfold check_holdings.
  pose proof (check_extra t) as Ha.
  pose proof (check_required t) as Hb.
  pose proof (check_identifier t) as Hc.
  destruct (bool_decide (_ ∖ _ = ∅)); simpl.
  2:{ split; [done|]. split; intros Hn; exfalso; by apply Hn, Ha. }
  split; [intros H; apply Ha in H; discriminate|].
  destruct (bool_decide (_ ⊆ _)); simpl.
  2:{ split; [done|]. intros _ Hn. exfalso. by apply Hn, Hb. }
  split; [intros _ H; apply Hb in H; discriminate|].
  destruct (bool_decide (_ ∩ _ ≠ ∅)); simpl; [|done].
  intros _ _ H. apply Hc in H. discriminate.
Qed.

(** A table with a foreign column, no required column and no identifier. *)
Definition weights_only : Table := table.mkTable ["weight"] [[VFloat 1.0]].

(** X4 at [weights_only], which breaks all three rules and is reported for
    the first. *)
Lemma check_holdings_first_violation_witness :
  extra_column weights_only /\ required_missing weights_only /\
  no_identifier weights_only /\
  check_holdings weights_only = Raise (AssertionError "Extra columns found").
Proof.
  assert (Hextra : extra_column weights_only).
  { exists "weight". split; [left|].
    apply (bool_decide_unpack _). vm_compute. exact I. }
  split; [exact Hextra|]. split.
  { left. apply (bool_decide_unpack _). vm_compute. exact I. }
  split.
  { intros c Hc Hin.
    apply elem_of_cons in Hin as [->|Hin]; [|by apply elem_of_nil in Hin].
    revert Hc. apply (bool_decide_unpack _). vm_compute. exact I. }
  exact (proj1 (check_holdings_first_violation weights_only) Hextra).
Defined.

(** ** normalize_holdings_table, continued *)

Lemma traverse_Forall2_ext {A A' B} (f : A -> res B) (g : A' -> res B)
    (l : list A) (l' : list A') :
  Forall2 (fun x y => f x = g y) l l' -> traverse f l = traverse g l'.
Proof.
  induction 1 as [|x y l l' Hxy _ IH]; simpl; [reflexivity|].
  by rewrite Hxy, IH.
Qed.

(** A successful [map] rewrites the cell of the named column in every row
    and nothing else. *)
Lemma map_rows (t t' : Table) (c : string) (fn : value -> res value) :
  table.map t c fn = Ok t' ->
  exists i,
    table.index c (table.columns t) = Some i /\
    table.columns t' = table.columns t /\
    Forall2 (fun r r' => exists v v',
               r !! i = Some v /\ fn v = Ok v' /\ r' = <[i := v']> r)
            (table.rows t) (table.rows t').
Proof.
  unfold table.map.
  destruct (table.index c (table.columns t)) as [i|]; [|discriminate].
  cbn [of_option]. rewrite bind_Ok.
  destruct (traverse _ (table.rows t)) as [rows'|e] eqn:Hrows; [|discriminate].
  intros [= <-]. exists i. split; [reflexivity|]. split; [reflexivity|].
  apply traverse_Ok in Hrows. cbn [table.rows].
  eapply Forall2_impl; [exact Hrows|]. intros r r'. cbv beta.
  destruct (r !! i) as [v|]; [|discriminate]. cbn [of_option]. rewrite bind_Ok.
  destruct (fn v) as [v'|e] eqn:Hv; [|discriminate]. rewrite bind_Ok.
  intros [= <-]. by exists v, v'.
Qed.

(** Two different column names sit at different positions. *)
Lemma index_inj (cols : list string) (c c' : string) (i : nat) :
  table.index c cols = Some i -> table.index c' cols = Some i -> c = c'.
Proof.
  intros H H'. apply index_Some_lookup in H, H'. congruence.
Qed.

(** What a successful call of [normalize_holdings_table] did. *)
Lemma normalize_holdings_table_Ok (t t' : Table) :
  snd (normalize_holdings_table t) = Ok t' ->
  exists fs,
    fractions t = Ok fs /\ ~ (py_sum fs == 0)%Q /\
    table.map t "fraction" (fun f => py_mul f (1 / py_sum fs)%Q) = Ok t'.
Proof.
  destruct (fractions t) as [fs|e] eqn:Hfs.
  - rewrite (normalize_holdings_table_unfold t fs Hfs). cbn [snd].
    unfold py_div. destruct (Qeq_bool (py_sum fs) 0) eqn:Hz; [discriminate|].
    rewrite bind_Ok. intros Hmap. exists fs.
    split; [reflexivity|]. split; [|exact Hmap].
    by apply Qeq_bool_neq.
  - unfold normalize_holdings_table. rewrite Hfs. discriminate.
Qed.

(** X5: a successful [normalize_holdings_table] changes the fraction column
    only: the columns and the number of rows are the same, and every other
    column reads as before. *)
Theorem normalize_holdings_table_other_columns (t t' : Table) :
  snd (normalize_holdings_table t) = Ok t' ->
  table.columns t' = table.columns t /\
  length (table.rows t') = length (table.rows t) /\
  forall c, c <> "fraction" -> table.values t' c = table.values t c.
Proof.
  intros Hn. destruct (normalize_holdings_table_Ok t t' Hn) as (fs & _ & _ & Hmap).
  destruct (map_rows t t' _ _ Hmap) as (i & Hi & Hcols & Hrows).
  split; [exact Hcols|]. split; [symmetry; by eapply Forall2_length|].
  intros c Hc. unfold table.values. rewrite Hcols.
  destruct (table.index c (table.columns t)) as [j|] eqn:Hj; [|reflexivity].
  cbn [of_option]. rewrite !bind_Ok. symmetry.
  apply traverse_Forall2_ext. eapply Forall2_impl; [exact Hrows|].
  intros r r' (v & v' & _ & _ & ->). cbv beta.
  rewrite list_lookup_insert_ne; [reflexivity|].
  intros ->. apply Hc. by apply (index_inj (table.columns t) _ _ j).
Qed.

(** X5 at [three_quarters], whose asset types and tickers stay. *)
Lemma normalize_holdings_table_other_columns_witness :
  exists t',
    snd (normalize_holdings_table three_quarters) = Ok t' /\
    table.columns t' = ["fraction"; "asstype"; "ticker"] /\
    table.values t' "ticker" = Ok [VStr "A"; VStr "B"].
Proof.
  eexists. split; [vm_compute; reflexivity|].
  match goal with
  | |- table.columns ?t' = _ /\ _ =>
      destruct (normalize_holdings_table_other_columns three_quarters t')
        as (Hcols & _ & Hvals); [vm_compute; reflexivity|]
  end.
  split; [exact Hcols|]. rewrite Hvals; [reflexivity|discriminate].
Defined.

(** [check_holdings] reads the column names and the asset types only. *)
Lemma check_holdings_ext (t t' : Table) :
  table.columns t' = table.columns t ->
  table.values t' "asstype" = table.values t "asstype" ->
  check_holdings t' = check_holdings t.
Proof. intros Hcols Hvals. unfold check_holdings. by rewrite Hcols, Hvals. Qed.

(** X6: normalizing does not change what [check_holdings] says: the check
    gives the same verdict on the normalized table as on the original, so a
    table validated before normalizing needs no second check. *)
Theorem check_holdings_after_normalize (t t' : Table) :
  snd (normalize_holdings_table t) = Ok t' ->
  check_holdings t' = check_holdings t.
Proof.
  intros Hn.
  destruct (normalize_holdings_table_Ok t t' Hn) as (fs & _ & _ & Hmap).
  destruct (map_rows t t' _ _ Hmap) as (i & Hi & Hcols & Hrows).
  apply check_holdings_ext; [exact Hcols|].
  unfold table.values. rewrite Hcols.
  destruct (table.index "asstype" (table.columns t)) as [j|] eqn:Hj;
    [|reflexivity].
  cbn [of_option]. rewrite !bind_Ok. symmetry.
  apply traverse_Forall2_ext. eapply Forall2_impl; [exact Hrows|].
  intros r r' (v & v' & _ & _ & ->). cbv beta.
  rewrite list_lookup_insert_ne; [reflexivity|].
  intros ->. by pose proof (index_inj (table.columns t) _ _ j Hj Hi).
Qed.

(** X6 at [three_quarters], accepted before and after. *)
Lemma check_holdings_after_normalize_witness :
  check_holdings three_quarters = Ok () /\
  exists t',
    snd (normalize_holdings_table three_quarters) = Ok t' /\
    check_holdings t' = Ok ().
Proof.
  split; [vm_compute; reflexivity|].
  eexists. split; [vm_compute; reflexivity|].
  match goal with
  | |- check_holdings ?t' = _ =>
      rewrite (check_holdings_after_normalize three_quarters t')
  end; vm_compute; reflexivity.
Defined.

(** X7: whenever the total of the fractions is not zero, negative totals
    included, [normalize_holdings_table] returns fractions that sum to 1 and
    keep their proportions: each new fraction times the old total is the old
    fraction. *)
Theorem normalize_holdings_table_proportions (t : Table) (fs : list Q) :
  fractions t = Ok fs -> ~ (py_sum fs == 0)%Q ->
  exists t' fs',
    snd (normalize_holdings_table t) = Ok t' /\
    fractions t' = Ok fs' /\
    (py_sum fs' == 1)%Q /\
    Forall2 (fun f f' => f' * py_sum fs == f)%Q fs fs'.
Proof.
  intros Hfs Hs.
  destruct (normalize_holdings_table_scaled t fs Hfs Hs) as (t' & Hn & _ & Hf).
  exists t', (List.map (fun f => f * (1 / py_sum fs))%Q fs).
  split; [exact Hn|]. split; [exact Hf|]. split.
  - rewrite py_sum_scale. field. exact Hs.
  - apply Forall2_fmap_r, Forall_Forall2_diag, Forall_forall.
    intros f _. unfold compose. cbv beta. field. exact Hs.
Qed.

(** A fund that is net short: its weights sum to -1. *)
Definition net_short : Table :=
  table.mkTable ["fraction"; "asstype"; "ticker"]
                [[VFloat 0.5; VStr "Equity"; VStr "A"];
                 [VFloat (-1.5); VStr "Equity"; VStr "B"]].

(** X7 at [net_short]: the signs of the weights are flipped. *)
Lemma normalize_holdings_table_proportions_witness :
  (py_sum [0.5; -1.5] == -1)%Q /\
  exists t' fs',
    snd (normalize_holdings_table net_short) = Ok t' /\
    fractions t' = Ok fs' /\
    (py_sum fs' == 1)%Q /\
    Forall2 (fun f f' => f' * py_sum [0.5; -1.5] == f)%Q [0.5; -1.5]%Q fs'.
Proof.
  split; [reflexivity|].
  apply (normalize_holdings_table_proportions net_short [0.5; -1.5]%Q eq_refl).
  by vm_compute.
Defined.

Lemma Qltb_proper (x y x' y' : Q) :
  (x == x')%Q -> (y == y')%Q -> Qltb x y = Qltb x' y'.
Proof. intros Hx Hy. unfold Qltb. by rewrite Hx, Hy. Qed.



(** X9: when the fractions cannot be read, [normalize_holdings_table]
    raises before it logs or rescales anything: an [AttributeError] when a
    table with rows has no fraction column, a [TypeError] when the table
    satisfies the invariant and some fraction is not a number. *)
Theorem normalize_holdings_table_unreadable (t : Table) :
  (table.rows t <> [] -> "fraction" ∉ table.columns t ->
   normalize_holdings_table t = ([], Raise (AttributeError "fraction"))) /\
  (table.wf t ->
   (exists i r v, table.index "fraction" (table.columns t) = Some i /\
                  r ∈ table.rows t /\ r !! i = Some v /\
                  as_float v = Raise TypeError) ->
   normalize_holdings_table t = ([], Raise TypeError)).
Proof.
  split.
  - intros Hrows Hcol. apply index_None in Hcol.
    unfold normalize_holdings_table, fractions, table.iter.
    destruct (table.rows t) as [|r rs]; [done|].
    cbn [List.map traverse]. unfold table.getattr. cbn [table.row_columns].
    by rewrite Hcol.
  - intros Hwf (i & r & v & Hi & Hr & Hv & Hbad).
    assert (Hfs : fractions t = Raise TypeError).
    { unfold fractions, table.iter. rewrite traverse_map.
      unfold table.getattr. cbn [table.row_columns table.row_values].
      rewrite Hi. pose proof (index_Some_lt _ _ _ Hi) as Hlt.
      induction Hwf as [|r0 rs Hr0 _ IH]; [by apply elem_of_nil in Hr|].
      cbn [traverse].
      destruct (lookup_lt_is_Some_2 r0 i) as [v0 Hv0]; [lia|].
      apply elem_of_cons in Hr as [->|Hr].
      + rewrite Hv. cbn [of_option]. rewrite bind_Ok. by rewrite Hbad.
      + rewrite Hv0. cbn [of_option]. rewrite bind_Ok.
        destruct v0 as [s|q|]; cbn [as_float]; try reflexivity.
        by rewrite (IH Hr). }
    unfold normalize_holdings_table. by rewrite Hfs.
Qed.

(** A table whose second fraction is a string, and one without a fraction
    column. *)
Definition text_fraction : Table :=
  table.mkTable ["fraction"; "asstype"; "ticker"]
                [[VFloat 0.5; VStr "Equity"; VStr "A"];
                 [VStr "50%"; VStr "Equity"; VStr "B"]].
Definition no_fraction : Table :=
  table.mkTable ["asstype"; "ticker"] [[VStr "Equity"; VStr "A"]].

(** X9 at [no_fraction] and at [text_fraction]. *)
Lemma normalize_holdings_table_unreadable_witness :
  normalize_holdings_table no_fraction = ([], Raise (AttributeError "fraction"))
  /\ normalize_holdings_table text_fraction = ([], Raise TypeError).
Proof.
  split.
  - apply (proj1 (normalize_holdings_table_unreadable no_fraction)).
    + discriminate.
    + apply (bool_decide_unpack _). vm_compute. exact I.
  - apply (proj2 (normalize_holdings_table_unreadable text_fraction)).
    + repeat constructor.
    + exists 0%nat, [VStr "50%"; VStr "Equity"; VStr "B"], (VStr "50%").
      split; [reflexivity|]. split; [right; left|]. split; reflexivity.
Defined.

(** ** The driver, continued *)

(** X10: the loop skips a position at lines 120-143 in exactly three cases,
    all for a position with an issuer: the issuer is not registered, no
    downloaded file is found for the ticker, or the issuer's module has no
    parser.  Each case logs one error that names the issuer or the ticker;
    the last one after the record that announces the parsing. *)
Theorem raw_holdings_skipped_iff (env : Env) (row : Position)
    (log : list event) :
  raw_holdings env row = (log, Ok None) <->
  truthy (issuer row) = true /\
  let name := default "" (issuer row) in
  (MODULES env !! name = None /\ log = [ErrorMissingIssuer name]) \/
  (exists d, MODULES env !! name = Some d /\
             getlatest env (ticker row) = None /\
             log = [ErrorMissingFile (ticker row)]) \/
  (exists d filename,
     MODULES env !! name = Some d /\
     getlatest env (ticker row) = Some filename /\
     parse d = None /\
     log = [LogParsing filename name; ErrorNoParser (ticker row)]).
Proof.
  unfold raw_holdings.
  destruct (truthy (issuer row)); cbn [negb].
  2:{ split; [discriminate|]. by intros [? _]. }
  cbv zeta.
  destruct (MODULES env !! default "" (issuer row)) as [d|] eqn:Hd.
  2:{ split.
      - intros [= <-]. split; [done|]. by left.
      - intros [_ [[_ ->]|[(d & [=] & _)|(d & f & [=] & _)]]]. reflexivity. }
  destruct (getlatest env (ticker row)) as [filename|] eqn:Hf.
  2:{ split.
      - intros [= <-]. split; [done|]. right. left. by exists d.
      - intros [_ [[[=] _]|[(d' & _ & _ & ->)|(d' & f & _ & [=] & _)]]].
        reflexivity. }
  destruct (parse d) as [p|] eqn:Hp.
  - split.
    + unfold lift, logging. cbn.
      destruct (p filename) as [h|e]; cbn; [|discriminate].
      destruct (check_holdings h) as [[]|e]; cbn; discriminate.
    + intros [_ [[[=] _]|[(d' & _ & [=] & _)|(d' & f & Hd' & _ & Hp' & _)]]].
      injection Hd' as <-. congruence.
  - split.
    + intros [= <-]. split; [done|]. right. right. by exists d, filename.
    + intros [_ [[[=] _]|[(d' & _ & [=] & _)|(d' & f & _ & Hf' & _ & ->)]]].
      by injection Hf' as <-.
Qed.

(** A fund whose issuer is not registered in [issuer_x]. *)
Definition orphan : Position := mkPosition "ORPH" "taxable" (Some "Y") 7 3.

(** X10 at [orphan]. *)
Lemma raw_holdings_skipped_iff_witness :
  raw_holdings issuer_x orphan = ([ErrorMissingIssuer "Y"], Ok None).
Proof.
  apply raw_holdings_skipped_iff. split; [reflexivity|].
  left. split; [|reflexivity]. by vm_compute.
Defined.

(** X11: a position that is skipped at lines 120-143 costs its log records
    and nothing else: the loop goes on with the next position and the
    tables accumulated so far. *)
Theorem skipped_position_continues (env : Env) (ignore_shorts : bool)
    (row : Position) (rest : list Position) (alltables : list Table)
    (log : list event) :
  Qltb (number row) 0 && ignore_shorts = false ->
  raw_holdings env row = (log, Ok None) ->
  main_loop env ignore_shorts (row :: rest) alltables
  = (log ++ fst (main_loop env ignore_shorts rest alltables),
     snd (main_loop env ignore_shorts rest alltables)).
Proof.
  intros Hshort Hraw. cbn [main_loop]. rewrite Hshort, Hraw.
  unfold mbind, M_bind. cbv beta iota.
  by destruct (main_loop env ignore_shorts rest alltables) as [l r].
Qed.

(** X11 at [orphan] followed by [fund]: the fund is processed after the
    error is logged. *)
Lemma skipped_position_continues_witness :
  fst (main_loop issuer_x false [orphan; fund] [])
  = [ErrorMissingIssuer "Y"; LogParsing "FUND.csv" "X"] /\
  snd (main_loop issuer_x false [orphan; fund] [])
  = snd (main_loop issuer_x false [fund] []).
Proof.
  assert (Hraw : raw_holdings issuer_x orphan
                 = ([ErrorMissingIssuer "Y"], Ok None))
    by (vm_compute; reflexivity).
  rewrite (skipped_position_continues issuer_x false orphan [fund] []
             [ErrorMissingIssuer "Y"] eq_refl Hraw).
  split; [|reflexivity]. vm_compute. reflexivity.
Defined.

(** An exception raised while the holdings of a position are fetched ends
    the loop, the full table and [main]. *)
Lemma main_loop_raise (env : Env) (ignore_shorts : bool)
    (row : Position) (rest : list Position) (log : list event) (e : exn) :
  Qltb (number row) 0 && ignore_shorts = false ->
  raw_holdings env row = (log, Raise e) ->
  (forall alltables,
     main_loop env ignore_shorts (row :: rest) alltables = (log, Raise e)) /\
  full_table env ignore_shorts (row :: rest) = (log, Raise e) /\
  main env ignore_shorts (row :: rest) = (log, Raise e).
Proof.
  intros Hshort Hraw.
  assert (Hloop : forall alltables,
    main_loop env ignore_shorts (row :: rest) alltables = (log, Raise e)).
  { intros alltables. cbn [main_loop]. by rewrite Hshort, Hraw. }
  split; [exact Hloop|].
  assert (Hfull : full_table env ignore_shorts (row :: rest) = (log, Raise e)).
  { unfold full_table. by rewrite Hloop. }
  split; [exact Hfull|]. unfold main. by rewrite Hfull.
Qed.

(** X12: a holdings file that [check_holdings] rejects is fatal to the whole
    run, unlike a lookup miss: the assertion error leaves the loop after the
    record that announces the parsing, the positions that follow are not
    processed, and no full table is produced. *)
Theorem rejected_holdings_abort (env : Env) (ignore_shorts : bool)
    (row : Position) (rest : list Position) (d : Downloader)
    (filename : string) (p : string -> res Table) (h : Table) (e : exn) :
  Qltb (number row) 0 && ignore_shorts = false ->
  truthy (issuer row) = true ->
  MODULES env !! default "" (issuer row) = Some d ->
  getlatest env (ticker row) = Some filename ->
  parse d = Some p ->
  p filename = Ok h ->
  check_holdings h = Raise e ->
  (forall alltables,
     main_loop env ignore_shorts (row :: rest) alltables
     = ([LogParsing filename (default "" (issuer row))], Raise e)) /\
  full_table env ignore_shorts (row :: rest)
  = ([LogParsing filename (default "" (issuer row))], Raise e) /\
  main env ignore_shorts (row :: rest)
  = ([LogParsing filename (default "" (issuer row))], Raise e).
Proof.
  intros Hshort Hissuer Hd Hf Hp Hh Hcheck.
  apply main_loop_raise; [exact Hshort|].
  unfold raw_holdings. rewrite Hissuer. cbn [negb]. cbv zeta.
  rewrite Hd, Hf, Hp. unfold lift, logging, mbind, M_bind. cbv beta iota.
  rewrite Hh. cbv beta iota. by rewrite Hcheck.
Qed.

(** An environment whose issuer X publishes the table [with_bond], which
    [check_holdings] rejects. *)
Definition issuer_bad : Env :=
  mkEnv {[ "X" := mkDownloader (Some (fun _ => Ok with_bond)) ]}
        (fun _ => Some "FUND.csv")
        (fun t => Ok t).

(** X12 at [fund] in [issuer_bad], followed by the direct holding [abc],
    which is never reached. *)
Lemma rejected_holdings_abort_witness :
  main issuer_bad false [fund; abc]
  = ([LogParsing "FUND.csv" "X"], Raise (AssertionError "")).
Proof.
  exact (proj2 (proj2 (rejected_holdings_abort issuer_bad false fund [abc]
                         (mkDownloader (Some (fun _ => Ok with_bond)))
                         "FUND.csv" (fun _ => Ok with_bond) with_bond
                         (AssertionError "")
                         eq_refl eq_refl eq_refl eq_refl eq_refl eq_refl
                         eq_refl))).
Defined.

(** *** The shape of the accumulated tables *)

Lemma create_inv (t t' : Table) (c : string) (fn : Row -> res value) :
  table.create t c fn = Ok t' ->
  table.columns t' = table.columns t ++ [c] /\
  Forall2 (fun r r' => exists v,
             fn (table.mkRow (table.columns t) r) = Ok v /\ r' = r ++ [v])
          (table.rows t) (table.rows t').
Proof.
  unfold table.create.
  destruct (decide (c ∈ table.columns t)); [discriminate|].
  destruct (traverse _ (table.rows t)) as [rows'|e] eqn:Hrows; [|discriminate].
  intros [= <-]. split; [reflexivity|]. cbn [table.rows].
  apply traverse_Ok in Hrows. eapply Forall2_impl; [exact Hrows|].
  intros r r'. cbv beta.
  destruct (fn _) as [v|e] eqn:Hv; [|discriminate]. rewrite bind_Ok.
  intros [= <-]. by exists v.
Qed.

Lemma select_inv (t t' : Table) (names : list string) :
  table.select t names = Ok t' ->
  table.columns t' = names /\
  length (table.rows t') = length (table.rows t) /\
  Forall (fun r' => length r' = length names) (table.rows t').
Proof.
  unfold table.select.
  destruct (traverse _ names) as [idxs|e] eqn:Hidx; [|discriminate].
  rewrite bind_Ok.
  destruct (traverse _ (table.rows t)) as [rows'|e] eqn:Hrows; [|discriminate].
  intros [= <-]. cbn [table.columns table.rows].
  split; [reflexivity|]. split; [by eapply traverse_length|].
  apply traverse_length in Hidx. apply traverse_Ok in Hrows.
  apply Forall_forall. intros r' Hr'.
  apply list_elem_of_lookup in Hr' as [k Hk].
  destruct (Forall2_lookup_r _ _ _ _ _ Hrows Hk) as (r & _ & Hr).
  apply traverse_length in Hr. lia.
Qed.

(** A row of a table the loop accumulates: nine cells, the last of which is
    a number. *)
Definition amount_row (r : list value) : Prop :=
  length r = 9%nat /\ exists q, r !! 8%nat = Some (VFloat q).

(** A table the loop accumulates. *)
Definition amount_table (t : Table) : Prop :=
  table.columns t = AMOUNT_COLUMNS /\ Forall amount_row (table.rows t).

Lemma amount_rows_array (rows : list (list value)) :
  Forall amount_row rows ->
  exists amounts,
    amount_array (table.mkTable AMOUNT_COLUMNS rows) = Ok amounts /\
    length amounts = length rows.
Proof.
  unfold amount_array, table.array, table.values.
  cbn [table.columns table.rows].
  change (table.index "amount" AMOUNT_COLUMNS) with (Some 8%nat).
  cbn [of_option]. rewrite bind_Ok.
  induction 1 as [|r rows [_ [q Hq]] _ (amounts & IH & Hlen)].
  - by exists [].
  - exists (q :: amounts). split; [|cbn; by rewrite Hlen].
    cbn [traverse]. rewrite Hq. cbn [of_option].
    destruct (traverse _ rows) as [vs|e]; [|discriminate].
    rewrite bind_Ok in IH |- *. cbn [traverse as_float]. by rewrite IH.
Qed.

(** Every table that the conversion of lines 146-155 returns is an amount
    table with one row per holding. *)
Lemma to_amounts_amount_table (row : Position) (h t : Table) :
  to_amounts row h = Ok t ->
  amount_table t /\ length (table.rows t) = length (table.rows h).
Proof.
  unfold to_amounts. rewrite add_missing_columns_spec, bind_Ok.
  destruct (table.create _ "etf" _) as [t2|e] eqn:H2; [|discriminate].
  rewrite bind_Ok.
  destruct (table.create t2 "account" _) as [t3|e] eqn:H3; [|discriminate].
  rewrite bind_Ok.
  destruct (table.select t3 COLUMNS) as [t4|e] eqn:H4; [|discriminate].
  rewrite bind_Ok.
  destruct (table.create t4 "amount" _) as [t5|e] eqn:H5; [|discriminate].
  rewrite bind_Ok. unfold table.delete.
  destruct (decide (Forall _ ["fraction"])) as [_|]; [|discriminate].
  intros [= <-]. unfold amount_table. cbn [table.columns table.rows].
  apply create_inv in H2 as [_ Hr2]. apply create_inv in H3 as [_ Hr3].
  apply select_inv in H4 as (Hc4 & Hl4 & Hr4).
  apply create_inv in H5 as [Hc5 Hr5].
  cbn [table.rows] in Hr2.
  apply Forall2_length in Hr2, Hr3. rewrite length_map in Hr2.
  pose proof (Forall2_length _ _ _ Hr5) as Hl5.
  assert (Hrows : Forall amount_row
            (List.map (table.drop_cells ["fraction"] (table.columns t5))
                      (table.rows t5))).
  { rewrite Hc5, Hc4. apply Forall_map, Forall_forall. intros r5 Hin.
    apply list_elem_of_lookup in Hin as [k Hk].
    destruct (Forall2_lookup_r _ _ _ _ _ Hr5 Hk) as (r4 & Hk4 & v & Hv & ->).
    rewrite Forall_forall in Hr4.
    pose proof (Hr4 r4 (list_elem_of_lookup_2 _ _ _ Hk4)) as Hlen4.
    do 9 (destruct r4 as [|? r4]; [done|]). destruct r4; [|done].
    rewrite Hc4, getattr_COLUMNS_fraction, bind_Ok in Hv.
    unfold py_mul in Hv.
    destruct (as_float _) as [q|]; [|discriminate].
    rewrite bind_Ok in Hv. injection Hv as <-.
    cbn [app]. rewrite drop_fraction. split; [reflexivity|]. by eexists. }
  rewrite Hc5, Hc4, amount_columns_eq in *.
  split; [by split|]. rewrite length_map. lia.
Qed.



(** The loop only appends amount tables, at most one per position. *)
Lemma main_loop_appends (env : Env) (ignore_shorts : bool)
    (assets : list Position) (alltables : list Table) (log : list event)
    (ts : list Table) :
  main_loop env ignore_shorts assets alltables = (log, Ok ts) ->
  exists new,
    ts = alltables ++ new /\
    (length new <= length assets)%nat /\
    Forall amount_table new.
Proof.
  revert alltables log.
  induction assets as [|row assets IH]; intros alltables log; cbn [main_loop].
  - intros [= <- <-]. exists []. by rewrite app_nil_r.
  - destruct (Qltb (number row) 0 && ignore_shorts).
    { intros H. destruct (IH _ _ H) as (new & -> & Hlen & Hnew).
      exists new. split; [reflexivity|]. split; [cbn; lia|exact Hnew]. }
    unfold mbind, M_bind, lift.
    destruct (raw_holdings env row) as [l [[h|]|e]]; [| |discriminate].
    + destruct (to_amounts row h) as [t|e] eqn:Ht; [|discriminate].
      destruct (main_loop env ignore_shorts assets (alltables ++ [t]))
        as [l' r] eqn:Hrest.
      cbn [app]. intros [= <- ->].
      destruct (IH _ _ Hrest) as (new & -> & Hlen & Hnew).
      exists (t :: new). split; [by rewrite <- app_assoc|].
      split; [cbn; lia|]. constructor; [|exact Hnew].
      by apply (to_amounts_amount_table row h t).
    + destruct (main_loop env ignore_shorts assets alltables)
        as [l' r] eqn:Hrest.
      intros [= <- ->].
      destruct (IH _ _ Hrest) as (new & -> & Hlen & Hnew).
      exists new. split; [reflexivity|]. split; [cbn; lia|exact Hnew].
Qed.

(** X14: when the loop over the assets ends without an exception, the list
    of tables it returns is the list it started from followed by at most one
    table per position, and each of these tables has the nine amount columns
    and satisfies the table invariant. *)
Theorem main_loop_tables (env : Env) (ignore_shorts : bool)
    (assets : list Position) (alltables : list Table) (log : list event)
    (ts : list Table) :
  main_loop env ignore_shorts assets alltables = (log, Ok ts) ->
  exists new,
    ts = alltables ++ new /\
    (length new <= length assets)%nat /\
    Forall (fun t => table.columns t = AMOUNT_COLUMNS /\ table.wf t) new.
Proof.
  intros H. destruct (main_loop_appends _ _ _ _ _ _ H) as (new & -> & Hlen & Hnew).
  exists new. split; [reflexivity|]. split; [exact Hlen|].
  eapply Forall_impl; [exact Hnew|]. intros t [Hcols Hrows].
  split; [exact Hcols|]. unfold table.wf. rewrite Hcols.
  eapply Forall_impl; [exact Hrows|]. by intros r [-> _].
Qed.

(** X14 at the positions [orphan], [fund], [short_abc] and [abc], with short
    positions ignored: two tables for four positions. *)
Lemma main_loop_tables_witness :
  exists log ts new,
    main_loop issuer_x true [orphan; fund; short_abc; abc] [] = (log, Ok ts) /\
    ts = [] ++ new /\ length ts = 2%nat /\
    Forall (fun t => table.columns t = AMOUNT_COLUMNS /\ table.wf t) new.
Proof.
  destruct (main_loop issuer_x true [orphan; fund; short_abc; abc] [])
    as [log [ts|e]] eqn:Hloop; [|by vm_compute in Hloop].
  destruct (main_loop_tables _ _ _ _ _ _ Hloop) as (new & Hts & _ & Hnew).
  exists log, ts, new. split; [reflexivity|]. split; [exact Hts|].
  split; [|exact Hnew].
  vm_compute in Hloop. by injection Hloop as _ <-.
Defined.



(** X16: a position without issuer that the loop does not skip contributes
    one row, for any ticker, account, number of units and price: the ticker
    is both the parent and the identifier, the other identifiers are empty,
    and the amount is [1.0 * (number * price)], the market value of the
    position, negative for a short position.  Nothing is logged. *)
Theorem direct_holding_market_value (env : Env) (ignore_shorts : bool)
    (row : Position) :
  truthy (issuer row) = false ->
  Qltb (number row) 0 && ignore_shorts = false ->
  main_loop env ignore_shorts [row] []
  = ([], Ok [table.mkTable AMOUNT_COLUMNS
               [[VStr (ticker row); VStr (account row); VStr "Equity";
                 VStr ""; VStr (ticker row); VStr ""; VStr ""; VStr "";
                 VFloat (1.0 * (number row * price row))]]]) /\
  (1.0 * (number row * price row) == number row * price row)%Q.
Proof.
  intros Hissuer Hshort. split; [|ring].
  apply (main_loop_single env ignore_shorts row []
           (direct_holding (ticker row))); [exact Hshort| |].
  - unfold raw_holdings. by rewrite Hissuer.
  - destruct row as [tick acct iss pr num]. vm_compute. reflexivity.
Qed.

(** X16 at [short_abc] when short positions are kept: the amount is
    negative. *)
Lemma direct_holding_market_value_witness :
  main_loop no_issuers false [short_abc] []
  = ([], Ok [table.mkTable AMOUNT_COLUMNS
               [[VStr "ABC"; VStr "taxable"; VStr "Equity"; VStr "";
                 VStr "ABC"; VStr ""; VStr ""; VStr "";
                 VFloat (1.0 * (-5 * 5))]]]) /\
  (1.0 * (-5 * 5) == -25)%Q.
Proof.
  split; [|reflexivity].
  exact (proj1 (direct_holding_market_value no_issuers false short_abc
                  eq_refl eq_refl)).
Defined.

(** ** The reporting truncation, continued *)

Lemma cumsum_from_last (acc : Q) (l : list Q) (x : Q) :
  exists c, last (cumsum_from acc (l ++ [x])) = Some c /\
            (c == fold_left Qplus (l ++ [x]) acc)%Q.
Proof.
  revert acc. induction l as [|y l IH]; intros acc.
  - exists (acc + x)%Q. split; reflexivity.
  - destruct (IH (acc + y)%Q) as (c & Hc & Heq).
    exists c. split; [|exact Heq].
    cbn [app cumsum_from]. 
    destruct (cumsum_from (acc + y) (l ++ [x])) as [|c' cs] eqn:Hcs;
      [discriminate|]. exact Hc.
Qed.

Lemma filter_length_lt {A} (P : A -> Prop) `{!forall x, Decision (P x)}
    (l : list A) (x : A) :
  x ∈ l -> ~ P x -> (length (filter P l) < length l)%nat.
Proof.
  intros Hin Hx. induction l as [|y l IH]; [by apply elem_of_nil in Hin|].
  rewrite filter_cons. pose proof (length_filter P l) as Hle.
  apply elem_of_cons in Hin as [->|Hin].
  - destruct (decide (P y)); [contradiction|]. cbn. lia.
  - specialize (IH Hin). destruct (decide (P y)); cbn; lia.
Qed.

(** X17: the printed head never has more rows than the aggregated table,
    and when the total amount is not negative it is strictly shorter: the
    last row is never printed, so a table with a single row, or with all the
    value in one row, prints no row for it. *)
Theorem headsize_bound (amount : list Q) :
  (headsize amount <= length amount)%nat /\
  (amount <> [] -> (0 <= py_sum amount)%Q ->
   (headsize amount < length amount)%nat).
Proof.
  rewrite headsize_count. unfold cumsum.
  pose proof (cumsum_from_length 0 amount) as Hlen.
  split.
  { rewrite <- Hlen. apply length_filter. }
  intros Hne Hpos. rewrite <- Hlen. clear Hlen.
  destruct (exists_last Hne) as (l & x & ->).
  destruct (cumsum_from_last 0 l x) as (c & Hlast & Hc).
  apply (filter_length_lt _ _ c).
  - apply last_Some in Hlast as [l' ->]. apply elem_of_app. right. left.
  - intros Hlt. apply Is_true_true, Qltb_lt in Hlt.
    unfold threshold in Hlt. fold (py_sum (l ++ [x])) in Hc.
    rewrite Hc in Hlt. revert Hlt. apply Qle_not_lt.
    rewrite <- (Qmult_1_r (py_sum (l ++ [x]))) at 2.
    rewrite (Qmult_comm _ 0.98), (Qmult_comm _ 1).
    apply Qmult_le_compat_r; [by vm_compute|exact Hpos].
Qed.

(** X17 at an aggregated table with one row of 100: nothing is printed. *)
Lemma headsize_bound_witness :
  (0 <= py_sum [100])%Q /\ (headsize [100]%Q < 1)%nat /\
  headsize [100]%Q = 0%nat.
Proof.
  assert (Hpos : (0 <= py_sum [100])%Q) by (by vm_compute).
  split; [exact Hpos|]. split; [|reflexivity].
  refine (proj2 (headsize_bound [100]%Q) _ Hpos). discriminate.
Defined.

(** ** utils.abslistdir *)

Lemma abslistdir_loop_spec (directory : string) (names filenames : list string) :
  utils.abslistdir_loop directory names filenames
  = filenames ++ List.map (utils.join directory) names.
Proof.
  revert filenames. induction names as [|n names IH]; intros filenames;
    cbn [utils.abslistdir_loop List.map].
  - by rewrite app_nil_r.
  - by rewrite IH, <- app_assoc.
Qed.

(** X18: [abslistdir] returns one path per entry of the directory, in the
    order of the listing: the path at each position is the directory joined
    with the entry at that position.  An error of [os.listdir] is passed
    on. *)
Theorem abslistdir_entries (listdir : string -> utils.OSError + list string)
    (directory : string) :
  (forall e, listdir directory = inl e ->
             utils.abslistdir listdir directory = inl e) /\
  (forall names, listdir directory = inr names ->
     exists paths,
       utils.abslistdir listdir directory = inr paths /\
       length paths = length names /\
       forall i name, names !! i = Some name ->
                      paths !! i = Some (utils.join directory name)).
Proof.
  unfold utils.abslistdir. split.
  - by intros e ->.
  - intros names ->. eexists. split; [reflexivity|].
    rewrite abslistdir_loop_spec. cbn [app].
    split; [apply length_map|].
    intros i name Hi. change (List.map ?f ?l) with (f <$> l).
    by rewrite list_lookup_fmap, Hi.
Qed.

(** A directory with two entries, and no other directory. *)
Definition one_directory (d : string) : utils.OSError + list string :=
  if decide (d = "db/ishares") then inr ["IVV.csv"; "IJH.csv"]
  else inl utils.FileNotFoundError.

(** X18 at [one_directory]. *)
Lemma abslistdir_entries_witness :
  (exists paths,
     utils.abslistdir one_directory "db/ishares" = inr paths /\
     length paths = 2%nat /\
     paths !! 1%nat = Some "db/ishares/IJH.csv") /\
  utils.abslistdir one_directory "db/vanguard" = inl utils.FileNotFoundError.
Proof.
  split.
  - destruct (proj2 (abslistdir_entries one_directory "db/ishares")
                    ["IVV.csv"; "IJH.csv"] eq_refl)
      as (paths & Hpaths & Hlen & Hnth).
    exists paths. split; [exact Hpaths|]. split; [exact Hlen|].
    exact (Hnth 1%nat "IJH.csv" eq_refl).
  - exact (proj1 (abslistdir_entries one_directory "db/vanguard")
                 utils.FileNotFoundError eq_refl).
Defined.

Lemma prefix_append (a b : string) : String.prefix a (a +:+ b) = true.
Proof.
  induction a as [|c a IH].
  - by destruct b.
  - change (String c a +:+ b) with (String c (a +:+ b)).
    cbn [String.prefix].
    destruct (Ascii.ascii_dec c c); [exact IH|contradiction].
Qed.

Lemma append_assoc (a b c : string) : a +:+ (b +:+ c) = (a +:+ b) +:+ c.
Proof.
  induction a as [|x a IH]; [reflexivity|].
  change (String x (a +:+ (b +:+ c)) = String x ((a +:+ b) +:+ c)).
  by rewrite IH.
Qed.

Lemma startswith_sep_append (a b : string) :
  a <> "" -> utils.startswith_sep (a +:+ b) = utils.startswith_sep a.
Proof. by destruct a. Qed.

(** The join of a directory and a plain entry name. *)
Lemma join_plain (a b : string) :
  utils.startswith_sep b = false ->
  String.prefix a (utils.join a b) = true /\
  (exists pre, utils.join a b = pre +:+ b) /\
  utils.startswith_sep (utils.join a b) = utils.startswith_sep a.
Proof.
  intros Hb. unfold utils.join. rewrite Hb.
  destruct (bool_decide (a = "")) eqn:Ha; cbn [orb].
  - apply bool_decide_eq_true in Ha as ->. cbn.
    split; [by destruct b|]. split; [by exists ""|exact Hb].
  - apply bool_decide_eq_false in Ha.
    destruct (utils.endswith_sep a).
    + split; [apply prefix_append|]. split; [by exists a|].
      by apply startswith_sep_append.
    + split; [apply prefix_append|]. split.
      * exists (a +:+ "/"). apply append_assoc.
      * by apply startswith_sep_append.
Qed.

(** X19: for the entry names that [os.listdir] returns, which do not start
    with a separator, every path of [abslistdir] starts with the directory
    and ends with the entry name, and it is absolute exactly when the
    directory is: [abslistdir] does not make a relative directory
    absolute. *)
Theorem abslistdir_relative (listdir : string -> utils.OSError + list string)
    (directory : string) (names paths : list string) :
  listdir directory = inr names ->
  Forall (fun name => utils.startswith_sep name = false) names ->
  utils.abslistdir listdir directory = inr paths ->
  Forall2 (fun name path =>
             String.prefix directory path = true /\
             (exists pre, path = pre +:+ name) /\
             utils.startswith_sep path = utils.startswith_sep directory)
          names paths.
Proof.
  intros Hlist Hnames. unfold utils.abslistdir. rewrite Hlist.
  intros [= <-]. rewrite abslistdir_loop_spec. cbn [app].
  apply Forall2_fmap_r, Forall_Forall2_diag.
  eapply Forall_impl; [exact Hnames|]. intros name Hname.
  by apply join_plain.
Qed.

(** X19 at [one_directory]: the directory is relative and so are the
    paths. *)
Lemma abslistdir_relative_witness :
  utils.startswith_sep "db/ishares" = false /\
  Forall2 (fun name path =>
             String.prefix "db/ishares" path = true /\
             (exists pre, path = pre +:+ name) /\
             utils.startswith_sep path = utils.startswith_sep "db/ishares")
          ["IVV.csv"; "IJH.csv"]
          ["db/ishares/IVV.csv"; "db/ishares/IJH.csv"].
Proof.
  split; [reflexivity|].
  apply (abslistdir_relative one_directory "db/ishares"); [reflexivity| |].
  - repeat constructor.
  - reflexivity.
Defined.

(** ** The rows of a converted table *)

(** The cell of row [r] of the holdings table [h] in column [c], or the
    empty string when [h] has no such column. *)
Definition cell_of (h : Table) (r : list value) (c : string) : value :=
  match table.index c (table.columns h) with
  | Some i => default VNone (r !! i)
  | None => VStr ""
  end.

(** The row that lines 146-155 make of the row [r] of [h], whose fraction is
    [f], for the position [row]. *)
Definition amount_row_of (row : Position) (h : Table) (r : list value) (f : Q)
  : list value :=
  [VStr (ticker row); VStr (account row); cell_of h r "asstype";
   cell_of h r "name"; cell_of h r "ticker"; cell_of h r "sedol";
   cell_of h r "isin"; cell_of h r "cusip";
   VFloat (f * (number row * price row))].

(** Reading a row extended by lines 146-148 at the position of one of the
    holdings or identifier columns. *)
Lemma extended_row_cell (row : Position) (h : Table) (r : list value)
    (c : string) (x : nat) :
  length r = length (table.columns h) ->
  c ∈ table.columns h ++ missing IDCOLUMNS h ->
  table.index c (((table.columns h ++ missing IDCOLUMNS h) ++ ["etf"])
                   ++ ["account"]) = Some x ->
  default VNone
    ((((r ++ replicate (length (missing IDCOLUMNS h)) (VStr ""))
         ++ [VStr (ticker row)]) ++ [VStr (account row)]) !! x)
  = cell_of h r c.
Proof.
  intros Hlen Hc Hx. unfold cell_of.
  destruct (index_elem_of _ _ Hc) as [y Hy].
  rewrite (index_app_l _ _ _ _ (index_app_l _ _ _ _ Hy)) in Hx.
  injection Hx as <-.
  pose proof (index_Some_lt _ _ _ Hy) as Hlt. rewrite length_app in Hlt.
  rewrite !lookup_app_l
    by (rewrite ?length_app, ?length_replicate; cbn [length]; lia).
  destruct (table.index c (table.columns h)) as [i|] eqn:Hi.
  - rewrite (index_app_l _ _ _ _ Hi) in Hy. injection Hy as <-.
    rewrite lookup_app_l; [reflexivity|].
    apply index_Some_lt in Hi. lia.
  - apply index_None in Hi. rewrite index_app_r in Hy by exact Hi.
    destruct (table.index c (missing IDCOLUMNS h)) as [j|] eqn:Hj;
      [|discriminate].
    injection Hy as <-. apply index_Some_lt in Hj.
    rewrite lookup_app_r by lia.
    replace (length (table.columns h) + j - length r)%nat with j by lia.
    by rewrite lookup_replicate_2.
Qed.

(** X20: for a holdings table that satisfies the invariant, is accepted by
    [check_holdings] and has numeric fractions, the conversion of lines
    146-155 succeeds and maps the rows one to one, in order: each new row
    holds the position's ticker and account, then the asset type and the
    five identifiers of the old row, an empty string standing for an
    identifier column the table lacked, and last the fraction times
    [number * price]. *)
Theorem to_amounts_rows (row : Position) (h : Table) (fs : list Q) :
  table.wf h -> check_holdings h = Ok () -> fractions h = Ok fs ->
  exists t,
    to_amounts row h = Ok t /\
    table.columns t = AMOUNT_COLUMNS /\
    table.rows t
    = zip_with (amount_row_of row h) (table.rows h) fs.
Proof.
  intros Hwf Hok Hfs.
  destruct (check_holdings_Ok_columns h Hok) as [Hextra Hreq].
  assert (Hfrac : "fraction" ∈ table.columns h).
  { destruct (decide ("fraction" ∈ table.columns h)); [done|].
    exfalso. apply Hreq. by right. }
  assert (Hass : "asstype" ∈ table.columns h).
  { destruct (decide ("asstype" ∈ table.columns h)); [done|].
    exfalso. apply Hreq. by left. }
  destruct (index_elem_of _ _ Hfrac) as [i Hi].
  apply (fractions_Forall2 h i fs Hi) in Hfs.
  unfold to_amounts. rewrite provenance_columns by exact Hextra.
  set (pad := replicate (length (missing IDCOLUMNS h)) (VStr "")).
  set (ext := fun r : list value =>
                ((r ++ pad) ++ [VStr (ticker row)]) ++ [VStr (account row)]).
  set (cs2 := table.columns h ++ missing IDCOLUMNS h).
  set (cs3 := (cs2 ++ ["etf"]) ++ ["account"]).
  set (t3 := table.mkTable cs3 (List.map ext (table.rows h))).
  assert (Hfresh : forall c, c ∉ ["asstype"; "fraction"] ++ IDCOLUMNS ->
                             c ∉ cs2).
  { intros c Hc. unfold cs2. rewrite not_elem_of_app. split.
    - intros Hin. apply Hextra. by exists c.
    - unfold missing. rewrite list_elem_of_filter. intros [_ Hin].
      apply Hc. apply elem_of_app. by right. }
  assert (Hetf : "etf" ∉ cs2).
  { apply Hfresh. apply (bool_decide_unpack _). vm_compute. exact I. }
  assert (Hacc : "account" ∉ cs2 ++ ["etf"]).
  { rewrite not_elem_of_app. split.
    - apply Hfresh. apply (bool_decide_unpack _). vm_compute. exact I.
    - apply (bool_decide_unpack _). vm_compute. exact I. }
  assert (Hwf3 : table.wf t3).
  { unfold table.wf, t3. cbn [table.columns table.rows].
    apply Forall_map. eapply Forall_impl; [exact Hwf|].
    intros r Hr. cbv beta in Hr. unfold ext, cs3, cs2, pad. cbv beta.
    rewrite !length_app, length_replicate. cbn [length]. lia. }
  assert (Hid : forall c, c ∈ IDCOLUMNS -> c ∈ cs2).
  { intros c Hc. by apply missing_covers. }
  assert (Hcols3 : Forall (fun n => n ∈ table.columns t3) COLUMNS).
  { unfold t3, cs3. cbn [table.columns]. unfold COLUMNS.
    apply Forall_app. split.
    - repeat constructor.
      + apply elem_of_app. left. apply elem_of_app. right. left.
      + apply elem_of_app. right. left.
      + do 2 (apply elem_of_app; left). apply elem_of_app. by left.
      + do 2 (apply elem_of_app; left). apply elem_of_app. by left.
    - apply Forall_forall. intros c Hc. do 2 (apply elem_of_app; left).
      by apply Hid. }
  destruct (select_spec t3 COLUMNS Hwf3 Hcols3) as (idxs & Hidx & Hsel).
  rewrite Hsel, bind_Ok.
  unfold COLUMNS, IDCOLUMNS in Hidx. simpl in Hidx.
  repeat match type of Hidx with
         | Forall2 _ (_ :: _) _ =>
             apply Forall2_cons_inv_l in Hidx as (? & ? & ? & Hidx & ->)
         end.
  apply Forall2_nil_inv_l in Hidx as ->.
  repeat match goal with
         | H : table.index _ (table.columns t3) = Some _ |- _ =>
             unfold t3 in H; cbn [table.columns] in H
         end.
  match goal with
  | H : table.index "etf" cs3 = Some ?j |- _ =>
      assert (j = length cs2) as ->
  end.
  { unfold cs3 in *.
    match goal with
    | H : table.index "etf" _ = Some _ |- _ =>
        rewrite (index_app_l "etf" (cs2 ++ ["etf"]) ["account"] (length cs2))
          in H; [by injection H|]
    end.
    rewrite index_app_r by exact Hetf.
    change (table.index "etf" ["etf"]) with (Some 0%nat).
    cbn. f_equal. lia. }
  match goal with
  | H : table.index "account" cs3 = Some ?j |- _ =>
      assert (j = length (cs2 ++ ["etf"])) as ->
  end.
  { unfold cs3 in *.
    match goal with
    | H : table.index "account" _ = Some _ |- _ =>
        rewrite index_app_r in H by exact Hacc;
        change (table.index "account" ["account"]) with (Some 0%nat) in H;
        cbn in H; injection H as <-; lia
    end. }
  assert (Hcell : forall r c x,
            length r = length (table.columns h) -> c ∈ cs2 ->
            table.index c cs3 = Some x ->
            default VNone (ext r !! x) = cell_of h r c).
  { intros r c x. apply extended_row_cell. }
  assert (Hin : forall c, c ∈ ["fraction"; "asstype"] ++ IDCOLUMNS -> c ∈ cs2).
  { intros c Hc. apply elem_of_app in Hc as [Hc|Hc]; [|by apply Hid].
    unfold cs2. apply elem_of_app. left.
    apply elem_of_cons in Hc as [->|Hc]; [done|].
    apply elem_of_cons in Hc as [->|Hc]; [done|].
    by apply elem_of_nil in Hc. }
  cbn [table.rows]. unfold t3 at 1. cbn [table.rows].
  set (vs := List.map (fun f => VFloat (f * (number row * price row))%Q) fs).
  match goal with
  | |- context [table.mkTable COLUMNS ?rs] => set (rows4 := rs)
  end.
  assert (Hfn : Forall2
            (fun r4 v =>
               (f ← table.getattr (table.mkRow COLUMNS r4) "fraction";
                py_mul f (number row * price row)%Q) = Ok v)
            rows4 vs).
  { unfold vs, rows4. rewrite !Forall2_fmap_l, Forall2_fmap_r.
    eapply Forall2_impl; [exact Hfs|].
    intros r f Hr. unfold compose. cbn [List.map].
    rewrite getattr_COLUMNS_fraction.
    assert (Hext : ext r !! i = Some (VFloat f)).
    { unfold ext. pose proof (lookup_lt_Some _ _ _ Hr) as Hlt.
      rewrite !lookup_app_l; [exact Hr|lia|..];
        rewrite ?length_app; lia. }
    match goal with
    | H : table.index "fraction" cs3 = Some ?j |- _ =>
        assert (j = i) as ->
    end.
    { match goal with
      | H : table.index "fraction" cs3 = Some _ |- _ =>
          unfold cs3, cs2 in H;
          rewrite (index_app_l _ _ _ _
                     (index_app_l _ _ _ _ (index_app_l _ _ _ _ Hi))) in H;
          by injection H
      end. }
    by rewrite Hext. }
  erewrite (create_Ok _ "amount" _ vs); cbn [table.columns table.rows].
  2:{ apply (bool_decide_unpack _). vm_compute. exact I. }
  2:{ exact Hfn. }
  rewrite bind_Ok. unfold table.delete. cbn [table.columns table.rows].
  destruct (decide (Forall _ ["fraction"])) as [_|Hn].
  2:{ exfalso. apply Hn. repeat constructor. }
  rewrite amount_columns_eq.
  eexists. split; [reflexivity|]. cbn [table.columns table.rows].
  split; [reflexivity|].
  unfold vs, rows4. clear Hfn Hsel rows4 vs Hwf3 Hcols3 t3.
  unfold table.wf in Hwf. revert Hwf Hfs.
  generalize (table.rows h) as rs. intros rs Hwf Hfs.
  induction Hfs as [|r f rs fs' Hr Hfs' IH]; [reflexivity|].
  apply Forall_cons in Hwf as [Hlen Hwf'].
  cbn [List.map zip_with]. f_equal.
  - cbn [app]. rewrite drop_fraction. unfold amount_row_of.
    repeat match goal with
           | H : table.index ?c cs3 = Some ?x |- context [ext r !! ?x] =>
               rewrite (Hcell r c x Hlen);
               [|apply Hin; apply (bool_decide_unpack _); vm_compute; exact I
                |exact H]
           end.
    assert (Hpad : length pad = length (missing IDCOLUMNS h))
      by apply length_replicate.
    assert (Hcs2 : length cs2
                   = (length (table.columns h)
                      + length (missing IDCOLUMNS h))%nat)
      by apply length_app.
    cbv beta in Hlen.
    assert (He : ext r !! length cs2 = Some (VStr (ticker row))).
    { unfold ext.
      rewrite lookup_app_l by (rewrite !length_app; cbn [length]; lia).
      rewrite lookup_app_r by (rewrite !length_app; lia).
      replace (length cs2 - length (r ++ pad))%nat with 0%nat; [reflexivity|].
      rewrite length_app. lia. }
    assert (Ha : ext r !! length (cs2 ++ ["etf"])
                 = Some (VStr (account row))).
    { unfold ext.
      rewrite lookup_app_r by (rewrite !length_app; cbn [length]; lia).
      replace (length (cs2 ++ ["etf"])
               - length ((r ++ pad) ++ [VStr (ticker row)]))%nat with 0%nat;
        [reflexivity|].
      rewrite !length_app. cbn [length]. lia. }
    by rewrite He, Ha.
  - apply IH. exact Hwf'.
Qed.

(** X20 at [fund] and [three_quarters]: the holdings A and B of the fund. *)
Lemma to_amounts_rows_witness :
  exists t,
    to_amounts fund three_quarters = Ok t /\
    table.rows t
    = [[VStr "FUND"; VStr "taxable"; VStr "Equity"; VStr ""; VStr "A";
        VStr ""; VStr ""; VStr ""; VFloat (0.5 * (10 * 5))];
       [VStr "FUND"; VStr "taxable"; VStr "Equity"; VStr ""; VStr "B";
        VStr ""; VStr ""; VStr ""; VFloat (0.25 * (10 * 5))]].
Proof.
  destruct (to_amounts_rows fund three_quarters [0.5; 0.25]%Q
              three_quarters_wf eq_refl eq_refl)
    as (t & Ht & _ & Hrows).
  exists t. split; [exact Ht|]. rewrite Hrows. reflexivity.
Defined.
